(** * Knowledgebase: slugs, the title-slug mapping and link resolution

    A shallow embedding of three pieces of the knowledgebase server:

    - [kb/slug.go]: [Slugify] and [ValidateSlug];
    - the [ditaconv] mapping package: [titelize] and [CreateMapping];
    - [module/dita/convert.go]: [Convert] and [ResolveLinkInfo].

    Go strings are modelled by the sequence of code points that a
    [for _, r := range s] loop yields on them (they are taken to hold
    valid UTF-8), so that a [[]rune] and the string built from it are the
    same list; [len] is the length in bytes of the UTF-8 encoding.

    Functions of other packages (Go's [unicode], [path] and [regexp],
    [fedwiki], [ditaconvert]) are Section variables, except for a small
    matcher that covers the two regular expressions of [titelize]. *)

From Stdlib Require Import Ascii String ZArith Lia.
From stdpp Require Import functions gmap strings list.

Local Open Scope Z_scope.

(* ================================================================== *)
(** ** Go strings *)

Abbreviation rune := Z.
Abbreviation gostring := (list rune).

Definition chr (a : ascii) : rune := Z.of_N (N_of_ascii a).

(** [str] turns an ASCII literal into a Go string. *)
Definition str (s : string) : gostring := chr <$> list_ascii_of_string s.

(** [utf8.RuneLen] on valid code points. *)
Definition RuneLen (r : rune) : Z :=
  if r <? 0x80 then 1
  else if r <? 0x800 then 2
  else if r <? 0x10000 then 3
  else 4.

(** The builtin [len] on a string: its number of bytes. *)
Definition len (s : gostring) : Z := foldr (fun r n => RuneLen r + n) 0 s.

(** [strings.HasPrefix]. *)
Fixpoint HasPrefix (s prefix : gostring) : bool :=
  match prefix, s with
  | [], _ => true
  | _ :: _, [] => false
  | p :: prefix', c :: s' => bool_decide (p = c) && HasPrefix s' prefix'
  end.

Definition nonempty {A} (l : list A) : bool :=
  match l with [] => false | _ :: _ => true end.

(** Lookup in a map literal, kept as the list of its entries. *)
Fixpoint assoc {V : Type} (r : rune) (table : list (rune * V)) : option V :=
  match table with
  | [] => None
  | (k, v) :: table' => if bool_decide (k = r) then Some v else assoc r table'
  end.

(* ================================================================== *)
(** ** kb/slug.go *)

Module Slug.

(** [type Slug string] *)
Abbreviation Slug := gostring.

(** [runename] is a table to decide how symbols should be encoded in a
    slug. *)
Definition runename_table : list (rune * string) := [
  (0x00000021, "excl");
  (0x00000022, "quot");
  (0x00000023, "num");
  (0x00000024, "dollar");
  (0x00000025, "percnt");
  (0x00000026, "amp");
  (0x00000027, "apos");
  (0x00000028, "lpar");
  (0x00000029, "rpar");
  (0x0000002A, "ast");
  (0x0000002B, "plus");
  (0x0000002C, "comma");
  (0x0000002E, "period");
  (0x0000002F, "sol");
  (0x0000003A, "colon");
  (0x0000003B, "semi");
  (0x0000003C, "lt");
  (0x0000003D, "equals");
  (0x0000003E, "gt");
  (0x0000003F, "quest");
  (0x00000040, "commat");
  (0x0000005B, "lsqb");
  (0x0000005C, "bsol");
  (0x0000005D, "rsqb");
  (0x0000005E, "hat");
  (0x0000005F, "lowbar");
  (0x00000060, "grave");
  (0x0000007B, "lcub");
  (0x0000007C, "vert");
  (0x0000007D, "rcub");
  (0x000000A1, "iexcl");
  (0x000000A2, "cent");
  (0x000000A3, "pound");
  (0x000000A4, "curren");
  (0x000000A5, "yen");
  (0x000000A6, "brvbar");
  (0x000000A7, "sect");
  (0x000000A8, "uml");
  (0x000000A9, "copy");
  (0x000000AB, "laquo");
  (0x000000AC, "not");
  (0x000000AE, "reg");
  (0x000000AF, "macr");
  (0x000000B0, "deg");
  (0x000000B1, "pm");
  (0x000000B4, "acute");
  (0x000000B6, "para");
  (0x000000B7, "middot");
  (0x000000B8, "cedil");
  (0x000000BB, "raquo");
  (0x000000BF, "iquest");
  (0x000000D7, "times");
  (0x000000F7, "div");
  (0x000002D8, "breve");
  (0x000002D9, "dot");
  (0x000002DA, "ring");
  (0x000002DB, "ogon");
  (0x000002DC, "tilde");
  (0x000002DD, "dblac");
  (0x000003F6, "bepsi");
  (0x00002010, "dash");
  (0x00002013, "ndash");
  (0x00002014, "mdash");
  (0x00002015, "horbar");
  (0x00002016, "vert");
  (0x00002018, "lsquo");
  (0x00002019, "rsquo");
  (0x0000201A, "sbquo");
  (0x0000201C, "ldquo");
  (0x0000201D, "rdquo");
  (0x0000201E, "bdquo");
  (0x00002020, "dagger");
  (0x00002021, "dagger");
  (0x00002022, "bull");
  (0x00002025, "nldr");
  (0x00002026, "mldr");
  (0x00002030, "permil");
  (0x00002031, "pertenk");
  (0x00002032, "prime");
  (0x00002033, "prime");
  (0x00002034, "tprime");
  (0x00002035, "bprime");
  (0x00002039, "lsaquo");
  (0x0000203A, "rsaquo");
  (0x0000203E, "oline");
  (0x00002041, "caret");
  (0x00002043, "hybull");
  (0x00002044, "frasl");
  (0x0000204F, "bsemi");
  (0x00002057, "qprime");
  (0x000020AC, "euro");
  (0x00002105, "incare");
  (0x00002116, "numero");
  (0x00002117, "copysr");
  (0x00002118, "wp");
  (0x0000211E, "rx");
  (0x00002122, "trade");
  (0x00002127, "mho");
  (0x00002129, "iiota");
  (0x00002190, "larr");
  (0x00002191, "uarr");
  (0x00002192, "rarr");
  (0x00002193, "darr");
  (0x00002194, "harr");
  (0x00002195, "varr");
  (0x00002196, "nwarr");
  (0x00002197, "nearr");
  (0x00002198, "searr");
  (0x00002199, "swarr");
  (0x0000219A, "nlarr");
  (0x0000219B, "nrarr");
  (0x0000219D, "rarrw");
  (0x0000219E, "larr");
  (0x0000219F, "uarr");
  (0x000021A0, "rarr");
  (0x000021A1, "darr");
  (0x000021A2, "larrtl");
  (0x000021A3, "rarrtl");
  (0x000021A4, "mapstoleft");
  (0x000021A5, "mapstoup");
  (0x000021A6, "map");
  (0x000021A7, "mapstodown");
  (0x000021A9, "larrhk");
  (0x000021AA, "rarrhk");
  (0x000021AB, "larrlp");
  (0x000021AC, "rarrlp");
  (0x000021AD, "harrw");
  (0x000021AE, "nharr");
  (0x000021B0, "lsh");
  (0x000021B1, "rsh");
  (0x000021B2, "ldsh");
  (0x000021B3, "rdsh");
  (0x000021B5, "crarr");
  (0x000021B6, "cularr");
  (0x000021B7, "curarr");
  (0x000021BA, "olarr");
  (0x000021BB, "orarr");
  (0x000021BC, "lharu");
  (0x000021BD, "lhard");
  (0x000021BE, "uharr");
  (0x000021BF, "uharl");
  (0x000021C0, "rharu");
  (0x000021C1, "rhard");
  (0x000021C2, "dharr");
  (0x000021C3, "dharl");
  (0x000021C4, "rlarr");
  (0x000021C5, "udarr");
  (0x000021C6, "lrarr");
  (0x000021C7, "llarr");
  (0x000021C8, "uuarr");
  (0x000021C9, "rrarr");
  (0x000021CA, "ddarr");
  (0x000021CB, "lrhar");
  (0x000021CC, "rlhar");
  (0x000021CD, "nlarr");
  (0x000021CE, "nharr");
  (0x000021CF, "nrarr");
  (0x000021D0, "larr");
  (0x000021D1, "uarr");
  (0x000021D2, "rarr");
  (0x000021D3, "darr");
  (0x000021D4, "iff");
  (0x000021D5, "varr");
  (0x000021D6, "nwarr");
  (0x000021D7, "nearr");
  (0x000021D8, "searr");
  (0x000021D9, "swarr");
  (0x000021DA, "laarr");
  (0x000021DB, "raarr");
  (0x000021DD, "zigrarr");
  (0x000021E4, "larrb");
  (0x000021E5, "rarrb");
  (0x000021F5, "duarr");
  (0x000021FD, "loarr");
  (0x000021FE, "roarr");
  (0x000021FF, "hoarr");
  (0x00002200, "forall");
  (0x00002201, "comp");
  (0x00002202, "part");
  (0x00002203, "exist");
  (0x00002204, "nexist");
  (0x00002205, "empty");
  (0x00002207, "del");
  (0x00002208, "in");
  (0x00002209, "notin");
  (0x0000220B, "ni");
  (0x0000220C, "notni");
  (0x0000220F, "prod");
  (0x00002210, "coprod");
  (0x00002211, "sum");
  (0x00002212, "minus");
  (0x00002213, "mp");
  (0x00002214, "plusdo");
  (0x00002216, "setmn");
  (0x00002217, "lowast");
  (0x00002218, "compfn");
  (0x0000221A, "sqrt");
  (0x0000221D, "prop");
  (0x0000221E, "infin");
  (0x0000221F, "angrt");
  (0x00002220, "ang");
  (0x00002221, "angmsd");
  (0x00002222, "angsph");
  (0x00002223, "mid");
  (0x00002224, "nmid");
  (0x00002225, "par");
  (0x00002226, "npar");
  (0x00002227, "and");
  (0x00002228, "or");
  (0x00002229, "cap");
  (0x0000222A, "cup");
  (0x0000222B, "int");
  (0x0000222C, "int");
  (0x0000222D, "tint");
  (0x0000222E, "oint");
  (0x0000222F, "conint");
  (0x00002230, "cconint");
  (0x00002231, "cwint");
  (0x00002232, "cwconint");
  (0x00002233, "awconint");
  (0x00002234, "there4");
  (0x00002235, "becaus");
  (0x00002236, "ratio");
  (0x00002237, "colon");
  (0x00002238, "minusd");
  (0x0000223A, "mddot");
  (0x0000223B, "homtht");
  (0x0000223C, "sim");
  (0x0000223D, "bsim");
  (0x0000223E, "ac");
  (0x0000223F, "acd");
  (0x00002240, "wr");
  (0x00002241, "nsim");
  (0x00002242, "esim");
  (0x00002243, "sime");
  (0x00002244, "nsime");
  (0x00002245, "cong");
  (0x00002246, "simne");
  (0x00002247, "ncong");
  (0x00002248, "ap");
  (0x00002249, "nap");
  (0x0000224A, "ape");
  (0x0000224B, "apid");
  (0x0000224C, "bcong");
  (0x0000224D, "cupcap");
  (0x0000224E, "bump");
  (0x0000224F, "bumpe");
  (0x00002250, "doteq");
  (0x00002251, "edot");
  (0x00002252, "efdot");
  (0x00002253, "erdot");
  (0x00002254, "assign");
  (0x00002255, "ecolon");
  (0x00002256, "ecir");
  (0x00002257, "cire");
  (0x00002259, "wedgeq");
  (0x0000225A, "veeeq");
  (0x0000225C, "trie");
  (0x0000225F, "equest");
  (0x00002260, "ne");
  (0x00002261, "equiv");
  (0x00002262, "nequiv");
  (0x00002264, "le");
  (0x00002265, "ge");
  (0x00002266, "le");
  (0x00002267, "ge");
  (0x00002268, "lne");
  (0x00002269, "gne");
  (0x0000226A, "lt");
  (0x0000226B, "gt");
  (0x0000226C, "twixt");
  (0x0000226D, "notcupcap");
  (0x0000226E, "nlt");
  (0x0000226F, "ngt");
  (0x00002270, "nle");
  (0x00002271, "nge");
  (0x00002272, "lsim");
  (0x00002273, "gsim");
  (0x00002274, "nlsim");
  (0x00002275, "ngsim");
  (0x00002276, "lg");
  (0x00002277, "gl");
  (0x00002278, "ntlg");
  (0x00002279, "ntgl");
  (0x0000227A, "pr");
  (0x0000227B, "sc");
  (0x0000227C, "prcue");
  (0x0000227D, "sccue");
  (0x0000227E, "prsim");
  (0x0000227F, "scsim");
  (0x00002280, "npr");
  (0x00002281, "nsc");
  (0x00002282, "sub");
  (0x00002283, "sup");
  (0x00002284, "nsub");
  (0x00002285, "nsup");
  (0x00002286, "sube");
  (0x00002287, "supe");
  (0x00002288, "nsube");
  (0x00002289, "nsupe");
  (0x0000228A, "subne");
  (0x0000228B, "supne");
  (0x0000228D, "cupdot");
  (0x0000228E, "uplus");
  (0x0000228F, "sqsub");
  (0x00002290, "sqsup");
  (0x00002291, "sqsube");
  (0x00002292, "sqsupe");
  (0x00002293, "sqcap");
  (0x00002294, "sqcup");
  (0x00002295, "oplus");
  (0x00002296, "ominus");
  (0x00002297, "otimes");
  (0x00002298, "osol");
  (0x00002299, "odot");
  (0x0000229A, "ocir");
  (0x0000229B, "oast");
  (0x0000229D, "odash");
  (0x0000229E, "plusb");
  (0x0000229F, "minusb");
  (0x000022A0, "timesb");
  (0x000022A1, "sdotb");
  (0x000022A2, "vdash");
  (0x000022A3, "dashv");
  (0x000022A4, "top");
  (0x000022A5, "bot");
  (0x000022A7, "models");
  (0x000022A8, "vdash");
  (0x000022A9, "vdash");
  (0x000022AA, "vvdash");
  (0x000022AB, "vdash");
  (0x000022AC, "nvdash");
  (0x000022AD, "nvdash");
  (0x000022AE, "nvdash");
  (0x000022AF, "nvdash");
  (0x000022B0, "prurel");
  (0x000022B2, "vltri");
  (0x000022B3, "vrtri");
  (0x000022B4, "ltrie");
  (0x000022B5, "rtrie");
  (0x000022B6, "origof");
  (0x000022B7, "imof");
  (0x000022B8, "mumap");
  (0x000022B9, "hercon");
  (0x000022BA, "intcal");
  (0x000022BB, "veebar");
  (0x000022BD, "barvee");
  (0x000022BE, "angrtvb");
  (0x000022BF, "lrtri");
  (0x000022C0, "wedge");
  (0x000022C1, "vee");
  (0x000022C2, "xcap");
  (0x000022C3, "xcup");
  (0x000022C4, "diam");
  (0x000022C5, "sdot");
  (0x000022C6, "star");
  (0x000022C7, "divonx");
  (0x000022C8, "bowtie");
  (0x000022C9, "ltimes");
  (0x000022CA, "rtimes");
  (0x000022CB, "lthree");
  (0x000022CC, "rthree");
  (0x000022CD, "bsime");
  (0x000022CE, "cuvee");
  (0x000022CF, "cuwed");
  (0x000022D0, "sub");
  (0x000022D1, "sup");
  (0x000022D2, "cap");
  (0x000022D3, "cup");
  (0x000022D4, "fork");
  (0x000022D5, "epar");
  (0x000022D6, "ltdot");
  (0x000022D7, "gtdot");
  (0x000022D8, "ll");
  (0x000022D9, "gg");
  (0x000022DA, "leg");
  (0x000022DB, "gel");
  (0x000022DE, "cuepr");
  (0x000022DF, "cuesc");
  (0x000022E0, "nprcue");
  (0x000022E1, "nsccue");
  (0x000022E2, "nsqsube");
  (0x000022E3, "nsqsupe");
  (0x000022E6, "lnsim");
  (0x000022E7, "gnsim");
  (0x000022E8, "prnsim");
  (0x000022E9, "scnsim");
  (0x000022EA, "nltri");
  (0x000022EB, "nrtri");
  (0x000022EC, "nltrie");
  (0x000022ED, "nrtrie");
  (0x000022EE, "vellip");
  (0x000022EF, "ctdot");
  (0x000022F0, "utdot");
  (0x000022F1, "dtdot");
  (0x000022F2, "disin");
  (0x000022F3, "isinsv");
  (0x000022F4, "isins");
  (0x000022F5, "isindot");
  (0x000022F6, "notinvc");
  (0x000022F7, "notinvb");
  (0x000022F9, "isine");
  (0x000022FA, "nisd");
  (0x000022FB, "xnis");
  (0x000022FC, "nis");
  (0x000022FD, "notnivc");
  (0x000022FE, "notnivb");
  (0x00002305, "barwed");
  (0x00002306, "barwed");
  (0x00002308, "lceil");
  (0x00002309, "rceil");
  (0x0000230A, "lfloor");
  (0x0000230B, "rfloor");
  (0x0000230C, "drcrop");
  (0x0000230D, "dlcrop");
  (0x0000230E, "urcrop");
  (0x0000230F, "ulcrop");
  (0x00002310, "bnot");
  (0x00002312, "profline");
  (0x00002313, "profsurf");
  (0x00002315, "telrec");
  (0x00002316, "target");
  (0x0000231C, "ulcorn");
  (0x0000231D, "urcorn");
  (0x0000231E, "dlcorn");
  (0x0000231F, "drcorn");
  (0x00002322, "frown");
  (0x00002323, "smile");
  (0x0000232D, "cylcty");
  (0x0000232E, "profalar");
  (0x00002336, "topbot");
  (0x0000233D, "ovbar");
  (0x0000233F, "solbar");
  (0x0000237C, "angzarr");
  (0x000023B0, "lmoust");
  (0x000023B1, "rmoust");
  (0x000023B4, "tbrk");
  (0x000023B5, "bbrk");
  (0x000023B6, "bbrktbrk");
  (0x000023DC, "overparenthesis");
  (0x000023DD, "underparenthesis");
  (0x000023DE, "overbrace");
  (0x000023DF, "underbrace");
  (0x000023E2, "trpezium");
  (0x000023E7, "elinters");
  (0x00002423, "blank");
  (0x000024C8, "os");
  (0x00002500, "boxh");
  (0x00002502, "boxv");
  (0x0000250C, "boxdr");
  (0x00002510, "boxdl");
  (0x00002514, "boxur");
  (0x00002518, "boxul");
  (0x0000251C, "boxvr");
  (0x00002524, "boxvl");
  (0x0000252C, "boxhd");
  (0x00002534, "boxhu");
  (0x0000253C, "boxvh");
  (0x00002550, "boxh");
  (0x00002551, "boxv");
  (0x00002552, "boxdr");
  (0x00002553, "boxdr");
  (0x00002554, "boxdr");
  (0x00002555, "boxdl");
  (0x00002556, "boxdl");
  (0x00002557, "boxdl");
  (0x00002558, "boxur");
  (0x00002559, "boxur");
  (0x0000255A, "boxur");
  (0x0000255B, "boxul");
  (0x0000255C, "boxul");
  (0x0000255D, "boxul");
  (0x0000255E, "boxvr");
  (0x0000255F, "boxvr");
  (0x00002560, "boxvr");
  (0x00002561, "boxvl");
  (0x00002562, "boxvl");
  (0x00002563, "boxvl");
  (0x00002564, "boxhd");
  (0x00002565, "boxhd");
  (0x00002566, "boxhd");
  (0x00002567, "boxhu");
  (0x00002568, "boxhu");
  (0x00002569, "boxhu");
  (0x0000256A, "boxvh");
  (0x0000256B, "boxvh");
  (0x0000256C, "boxvh");
  (0x00002580, "uhblk");
  (0x00002584, "lhblk");
  (0x00002588, "block");
  (0x00002591, "blk14");
  (0x00002592, "blk12");
  (0x00002593, "blk34");
  (0x000025A1, "squ");
  (0x000025AA, "squf");
  (0x000025AB, "emptyverysmallsquare");
  (0x000025AD, "rect");
  (0x000025AE, "marker");
  (0x000025B1, "fltns");
  (0x000025B3, "xutri");
  (0x000025B4, "utrif");
  (0x000025B5, "utri");
  (0x000025B8, "rtrif");
  (0x000025B9, "rtri");
  (0x000025BD, "xdtri");
  (0x000025BE, "dtrif");
  (0x000025BF, "dtri");
  (0x000025C2, "ltrif");
  (0x000025C3, "ltri");
  (0x000025CA, "loz");
  (0x000025CB, "cir");
  (0x000025EC, "tridot");
  (0x000025EF, "xcirc");
  (0x000025F8, "ultri");
  (0x000025F9, "urtri");
  (0x000025FA, "lltri");
  (0x000025FB, "emptysmallsquare");
  (0x000025FC, "filledsmallsquare");
  (0x00002605, "starf");
  (0x00002606, "star");
  (0x0000260E, "phone");
  (0x00002640, "female");
  (0x00002642, "male");
  (0x00002660, "spades");
  (0x00002663, "clubs");
  (0x00002665, "hearts");
  (0x00002666, "diams");
  (0x0000266A, "sung");
  (0x0000266D, "flat");
  (0x0000266E, "natur");
  (0x0000266F, "sharp");
  (0x00002713, "check");
  (0x00002717, "cross");
  (0x00002720, "malt");
  (0x00002736, "sext");
  (0x00002758, "verticalseparator");
  (0x00002772, "lbbrk");
  (0x00002773, "rbbrk");
  (0x000027C8, "bsolhsub");
  (0x000027C9, "suphsol");
  (0x000027E6, "lobrk");
  (0x000027E7, "robrk");
  (0x000027E8, "lang");
  (0x000027E9, "rang");
  (0x000027EA, "lang");
  (0x000027EB, "rang");
  (0x000027EC, "loang");
  (0x000027ED, "roang");
  (0x000027F5, "xlarr");
  (0x000027F6, "xrarr");
  (0x000027F7, "xharr");
  (0x000027F8, "xlarr");
  (0x000027F9, "xrarr");
  (0x000027FA, "xharr");
  (0x000027FC, "xmap");
  (0x000027FF, "dzigrarr");
  (0x00002902, "nvlarr");
  (0x00002903, "nvrarr");
  (0x00002904, "nvharr");
  (0x00002905, "map");
  (0x0000290C, "lbarr");
  (0x0000290D, "rbarr");
  (0x0000290E, "lbarr");
  (0x0000290F, "rbarr");
  (0x00002910, "rbarr");
  (0x00002911, "ddotrahd");
  (0x00002912, "uparrowbar");
  (0x00002913, "downarrowbar");
  (0x00002916, "rarrtl");
  (0x00002919, "latail");
  (0x0000291A, "ratail");
  (0x0000291B, "latail");
  (0x0000291C, "ratail");
  (0x0000291D, "larrfs");
  (0x0000291E, "rarrfs");
  (0x0000291F, "larrbfs");
  (0x00002920, "rarrbfs");
  (0x00002923, "nwarhk");
  (0x00002924, "nearhk");
  (0x00002925, "searhk");
  (0x00002926, "swarhk");
  (0x00002927, "nwnear");
  (0x00002928, "toea");
  (0x00002929, "tosa");
  (0x0000292A, "swnwar");
  (0x00002933, "rarrc");
  (0x00002935, "cudarrr");
  (0x00002936, "ldca");
  (0x00002937, "rdca");
  (0x00002938, "cudarrl");
  (0x00002939, "larrpl");
  (0x0000293C, "curarrm");
  (0x0000293D, "cularrp");
  (0x00002945, "rarrpl");
  (0x00002948, "harrcir");
  (0x00002949, "uarrocir");
  (0x0000294A, "lurdshar");
  (0x0000294B, "ldrushar");
  (0x0000294E, "leftrightvector");
  (0x0000294F, "rightupdownvector");
  (0x00002950, "downleftrightvector");
  (0x00002951, "leftupdownvector");
  (0x00002952, "leftvectorbar");
  (0x00002953, "rightvectorbar");
  (0x00002954, "rightupvectorbar");
  (0x00002955, "rightdownvectorbar");
  (0x00002956, "downleftvectorbar");
  (0x00002957, "downrightvectorbar");
  (0x00002958, "leftupvectorbar");
  (0x00002959, "leftdownvectorbar");
  (0x0000295A, "leftteevector");
  (0x0000295B, "rightteevector");
  (0x0000295C, "rightupteevector");
  (0x0000295D, "rightdownteevector");
  (0x0000295E, "downleftteevector");
  (0x0000295F, "downrightteevector");
  (0x00002960, "leftupteevector");
  (0x00002961, "leftdownteevector");
  (0x00002962, "lhar");
  (0x00002963, "uhar");
  (0x00002964, "rhar");
  (0x00002965, "dhar");
  (0x00002966, "luruhar");
  (0x00002967, "ldrdhar");
  (0x00002968, "ruluhar");
  (0x00002969, "rdldhar");
  (0x0000296A, "lharul");
  (0x0000296B, "llhard");
  (0x0000296C, "rharul");
  (0x0000296D, "lrhard");
  (0x0000296E, "udhar");
  (0x0000296F, "duhar");
  (0x00002970, "roundimplies");
  (0x00002971, "erarr");
  (0x00002972, "simrarr");
  (0x00002973, "larrsim");
  (0x00002974, "rarrsim");
  (0x00002975, "rarrap");
  (0x00002976, "ltlarr");
  (0x00002978, "gtrarr");
  (0x00002979, "subrarr");
  (0x0000297B, "suplarr");
  (0x0000297C, "lfisht");
  (0x0000297D, "rfisht");
  (0x0000297E, "ufisht");
  (0x0000297F, "dfisht");
  (0x00002985, "lopar");
  (0x00002986, "ropar");
  (0x0000298B, "lbrke");
  (0x0000298C, "rbrke");
  (0x0000298D, "lbrkslu");
  (0x0000298E, "rbrksld");
  (0x0000298F, "lbrksld");
  (0x00002990, "rbrkslu");
  (0x00002991, "langd");
  (0x00002992, "rangd");
  (0x00002993, "lparlt");
  (0x00002994, "rpargt");
  (0x00002995, "gtlpar");
  (0x00002996, "ltrpar");
  (0x0000299A, "vzigzag");
  (0x0000299C, "vangrt");
  (0x0000299D, "angrtvbd");
  (0x000029A4, "ange");
  (0x000029A5, "range");
  (0x000029A6, "dwangle");
  (0x000029A7, "uwangle");
  (0x000029A8, "angmsdaa");
  (0x000029A9, "angmsdab");
  (0x000029AA, "angmsdac");
  (0x000029AB, "angmsdad");
  (0x000029AC, "angmsdae");
  (0x000029AD, "angmsdaf");
  (0x000029AE, "angmsdag");
  (0x000029AF, "angmsdah");
  (0x000029B0, "bemptyv");
  (0x000029B1, "demptyv");
  (0x000029B2, "cemptyv");
  (0x000029B3, "raemptyv");
  (0x000029B4, "laemptyv");
  (0x000029B5, "ohbar");
  (0x000029B6, "omid");
  (0x000029B7, "opar");
  (0x000029B9, "operp");
  (0x000029BB, "olcross");
  (0x000029BC, "odsold");
  (0x000029BE, "olcir");
  (0x000029BF, "ofcir");
  (0x000029C0, "olt");
  (0x000029C1, "ogt");
  (0x000029C2, "cirscir");
  (0x000029C3, "cire");
  (0x000029C4, "solb");
  (0x000029C5, "bsolb");
  (0x000029C9, "boxbox");
  (0x000029CD, "trisb");
  (0x000029CE, "rtriltri");
  (0x000029CF, "lefttrianglebar");
  (0x000029D0, "righttrianglebar");
  (0x000029DC, "iinfin");
  (0x000029DD, "infintie");
  (0x000029DE, "nvinfin");
  (0x000029E3, "eparsl");
  (0x000029E4, "smeparsl");
  (0x000029E5, "eqvparsl");
  (0x000029EB, "lozf");
  (0x000029F4, "ruledelayed");
  (0x000029F6, "dsol");
  (0x00002A00, "xodot");
  (0x00002A01, "xoplus");
  (0x00002A02, "xotime");
  (0x00002A04, "xuplus");
  (0x00002A06, "xsqcup");
  (0x00002A0C, "qint");
  (0x00002A0D, "fpartint");
  (0x00002A10, "cirfnint");
  (0x00002A11, "awint");
  (0x00002A12, "rppolint");
  (0x00002A13, "scpolint");
  (0x00002A14, "npolint");
  (0x00002A15, "pointint");
  (0x00002A16, "quatint");
  (0x00002A17, "intlarhk");
  (0x00002A22, "pluscir");
  (0x00002A23, "plusacir");
  (0x00002A24, "simplus");
  (0x00002A25, "plusdu");
  (0x00002A26, "plussim");
  (0x00002A27, "plustwo");
  (0x00002A29, "mcomma");
  (0x00002A2A, "minusdu");
  (0x00002A2D, "loplus");
  (0x00002A2E, "roplus");
  (0x00002A2F, "cross");
  (0x00002A30, "timesd");
  (0x00002A31, "timesbar");
  (0x00002A33, "smashp");
  (0x00002A34, "lotimes");
  (0x00002A35, "rotimes");
  (0x00002A36, "otimesas");
  (0x00002A37, "otimes");
  (0x00002A38, "odiv");
  (0x00002A39, "triplus");
  (0x00002A3A, "triminus");
  (0x00002A3B, "tritime");
  (0x00002A3C, "iprod");
  (0x00002A3F, "amalg");
  (0x00002A40, "capdot");
  (0x00002A42, "ncup");
  (0x00002A43, "ncap");
  (0x00002A44, "capand");
  (0x00002A45, "cupor");
  (0x00002A46, "cupcap");
  (0x00002A47, "capcup");
  (0x00002A48, "cupbrcap");
  (0x00002A49, "capbrcup");
  (0x00002A4A, "cupcup");
  (0x00002A4B, "capcap");
  (0x00002A4C, "ccups");
  (0x00002A4D, "ccaps");
  (0x00002A50, "ccupssm");
  (0x00002A53, "and");
  (0x00002A54, "or");
  (0x00002A55, "andand");
  (0x00002A56, "oror");
  (0x00002A57, "orslope");
  (0x00002A58, "andslope");
  (0x00002A5A, "andv");
  (0x00002A5B, "orv");
  (0x00002A5C, "andd");
  (0x00002A5D, "ord");
  (0x00002A5F, "wedbar");
  (0x00002A66, "sdote");
  (0x00002A6A, "simdot");
  (0x00002A6D, "congdot");
  (0x00002A6E, "easter");
  (0x00002A6F, "apacir");
  (0x00002A70, "ape");
  (0x00002A71, "eplus");
  (0x00002A72, "pluse");
  (0x00002A73, "esim");
  (0x00002A74, "colone");
  (0x00002A75, "equal");
  (0x00002A77, "eddot");
  (0x00002A78, "equivdd");
  (0x00002A79, "ltcir");
  (0x00002A7A, "gtcir");
  (0x00002A7B, "ltquest");
  (0x00002A7C, "gtquest");
  (0x00002A7D, "les");
  (0x00002A7E, "ges");
  (0x00002A7F, "lesdot");
  (0x00002A80, "gesdot");
  (0x00002A81, "lesdoto");
  (0x00002A82, "gesdoto");
  (0x00002A83, "lesdotor");
  (0x00002A84, "gesdotol");
  (0x00002A85, "lap");
  (0x00002A86, "gap");
  (0x00002A87, "lne");
  (0x00002A88, "gne");
  (0x00002A89, "lnap");
  (0x00002A8A, "gnap");
  (0x00002A8B, "leg");
  (0x00002A8C, "gel");
  (0x00002A8D, "lsime");
  (0x00002A8E, "gsime");
  (0x00002A8F, "lsimg");
  (0x00002A90, "gsiml");
  (0x00002A91, "lge");
  (0x00002A92, "gle");
  (0x00002A93, "lesges");
  (0x00002A94, "gesles");
  (0x00002A95, "els");
  (0x00002A96, "egs");
  (0x00002A97, "elsdot");
  (0x00002A98, "egsdot");
  (0x00002A99, "el");
  (0x00002A9A, "eg");
  (0x00002A9D, "siml");
  (0x00002A9E, "simg");
  (0x00002A9F, "simle");
  (0x00002AA0, "simge");
  (0x00002AA1, "lessless");
  (0x00002AA2, "greatergreater");
  (0x00002AA4, "glj");
  (0x00002AA5, "gla");
  (0x00002AA6, "ltcc");
  (0x00002AA7, "gtcc");
  (0x00002AA8, "lescc");
  (0x00002AA9, "gescc");
  (0x00002AAA, "smt");
  (0x00002AAB, "lat");
  (0x00002AAC, "smte");
  (0x00002AAD, "late");
  (0x00002AAE, "bumpe");
  (0x00002AAF, "pre");
  (0x00002AB0, "sce");
  (0x00002AB3, "pre");
  (0x00002AB4, "sce");
  (0x00002AB5, "prne");
  (0x00002AB6, "scne");
  (0x00002AB7, "prap");
  (0x00002AB8, "scap");
  (0x00002AB9, "prnap");
  (0x00002ABA, "scnap");
  (0x00002ABB, "pr");
  (0x00002ABC, "sc");
  (0x00002ABD, "subdot");
  (0x00002ABE, "supdot");
  (0x00002ABF, "subplus");
  (0x00002AC0, "supplus");
  (0x00002AC1, "submult");
  (0x00002AC2, "supmult");
  (0x00002AC3, "subedot");
  (0x00002AC4, "supedot");
  (0x00002AC5, "sube");
  (0x00002AC6, "supe");
  (0x00002AC7, "subsim");
  (0x00002AC8, "supsim");
  (0x00002ACB, "subne");
  (0x00002ACC, "supne");
  (0x00002ACF, "csub");
  (0x00002AD0, "csup");
  (0x00002AD1, "csube");
  (0x00002AD2, "csupe");
  (0x00002AD3, "subsup");
  (0x00002AD4, "supsub");
  (0x00002AD5, "subsub");
  (0x00002AD6, "supsup");
  (0x00002AD7, "suphsub");
  (0x00002AD8, "supdsub");
  (0x00002AD9, "forkv");
  (0x00002ADA, "topfork");
  (0x00002ADB, "mlcp");
  (0x00002AE4, "dashv");
  (0x00002AE6, "vdashl");
  (0x00002AE7, "barv");
  (0x00002AE8, "vbar");
  (0x00002AE9, "vbarv");
  (0x00002AEB, "vbar");
  (0x00002AEC, "not");
  (0x00002AED, "bnot");
  (0x00002AEE, "rnmid");
  (0x00002AEF, "cirmid");
  (0x00002AF0, "midcir");
  (0x00002AF1, "topcir");
  (0x00002AF2, "nhpar");
  (0x00002AF3, "parsim");
  (0x00002AFD, "parsl")
].

Definition runename (r : rune) : option gostring := str <$> assoc r runename_table.

(** A lowercase ASCII letter or an ASCII digit: the characters that the
    names of [runename] are written in. *)
Definition plain (c : rune) : bool :=
  ((chr "a" <=? c) && (c <=? chr "z")) || ((chr "0" <=? c) && (c <=? chr "9")).

(** [case '/', '=':] *)
Definition is_separator (r : rune) : bool :=
  bool_decide (r = chr "/") || bool_decide (r = chr "=").

(** [case '-', ',', '.', ' ', '_':] *)
Definition is_dash (r : rune) : bool :=
  bool_decide (r = chr "-") || bool_decide (r = chr ",")
  || bool_decide (r = chr ".") || bool_decide (r = chr " ")
  || bool_decide (r = chr "_").

(** The three local variables of [Slugify]'s loop. *)
Record buffer := Buffer {
  slug : list rune;
  cutdash : bool;
  emitdash : bool
}.

(** [strings.Index(s, substr)] for a [substr] of one character; [None]
    is Go's -1.  Positions count code points: for a one-byte character,
    cutting the string there is cutting it at the byte index that Go
    returns. *)
Fixpoint Index (s : gostring) (c : rune) : option nat :=
  match s with
  | [] => None
  | x :: s' => if bool_decide (x = c) then Some 0%nat else S <$> Index s' c
  end.

(** The shape of a slug: a character that is neither a dash nor a
    separator belongs to a word, and wherever a dash stands, the
    characters next to it belong to words. *)
Definition word (c : rune) : bool :=
  negb (bool_decide (c = chr "-")) && negb (is_separator c).

Definition pair_ok (a b : rune) : bool :=
  (negb (bool_decide (a = chr "-")) || word b)
  && (negb (bool_decide (b = chr "-")) || word a).

Fixpoint adjacent_ok (s : gostring) : bool :=
  match s with
  | a :: s' =>
      match s' with
      | b :: _ => pair_ok a b && adjacent_ok s'
      | [] => true
      end
  | [] => true
  end.

(** No dash at either end, and none next to a dash or a separator. *)
Definition wellformed (s : gostring) : bool :=
  adjacent_ok s
  && negb (bool_decide (head s = Some (chr "-")))
  && negb (bool_decide (last s = Some (chr "-"))).

(** What the loop of [Slugify] keeps about the slug built so far: its
    shape, and a character of a word at its end while [cutdash] is
    unset. *)
Definition shaped (b : buffer) : Prop :=
  adjacent_ok (slug b) = true
  /\ head (slug b) <> Some (chr "-")
  /\ last (slug b) <> Some (chr "-")
  /\ (cutdash b = false ->
      exists a, last (slug b) = Some a /\ word a = true).

Section Unicode.

(** Go's [unicode.IsNumber], [unicode.IsLetter] and [unicode.ToLower]. *)
Variables IsNumber IsLetter : rune -> bool.
Variable ToLower : rune -> rune.

(** One iteration of [for _, r := range s]. *)
Definition Slugify_step (b : buffer) (r : rune) : buffer :=
  if IsNumber r || IsLetter r then
    let slug1 := if emitdash b && negb (cutdash b)
                 then slug b ++ [chr "-"] else slug b in
    Buffer (slug1 ++ [ToLower r]) false false
  else if is_separator r then
    Buffer (slug b ++ [r]) true false
  else if is_dash r then
    Buffer (slug b) (cutdash b) true
  else
    match runename r with
    | Some name =>
        let slug1 := if negb (cutdash b) then slug b ++ [chr "-"] else slug b in
        Buffer (slug1 ++ name) false true
    | None => Buffer (slug b) (cutdash b) true
    end.

Definition Slugify_loop (s : gostring) : buffer :=
  fold_left Slugify_step s (Buffer [] true false).

(** A letter or number in lowercase form. *)
Definition settled (c : rune) : Prop :=
  IsNumber c || IsLetter c = true /\ ToLower c = c.

(** A character that leaves no trace in the slug: it is neither a letter
    nor a number nor a separator, and [runename] has no name for it (or it
    is one of the characters turned into a dash). *)
Definition unnamed (r : rune) : bool :=
  negb (IsNumber r || IsLetter r) && negb (is_separator r)
  && (is_dash r || bool_decide (runename r = None)).

(** [Slugify] converts text to a slug. *)
Definition Slugify (s : gostring) : Slug :=
  let b := Slugify_loop s in
  if bool_decide (length (slug b) = 0%nat) then str "-" else slug b.

(** [ValidateSlug] verifies whether a slug is valid; [None] is Go's [nil]
    error. *)
Definition ValidateSlug (slug : Slug) : option string :=
  if bool_decide (length slug = 0%nat) then Some "slug cannot be empty"%string
  else
    let conv := Slugify slug in
    if bool_decide (slug <> conv) then Some "slugification modified the slug"%string
    else None.

(** [TokenizeLink] returns the owner and the page of a link. *)
Definition TokenizeLink (link : gostring) : Slug * Slug :=
  let link := if HasPrefix link (str "/") then drop 1 link else link in
  let slug := Slugify link in
  match Index slug (chr "=") with
  | None => ([], slug)
  | Some i => (take i slug, slug)
  end.

(** [TokenizeLink3] returns the owner, the title and the page. *)
Definition TokenizeLink3 (link : gostring) : Slug * Slug * Slug :=
  let link := if HasPrefix link (str "/") then drop 1 link else link in
  let slug := Slugify link in
  match Index slug (chr "=") with
  | None => ([], slug, slug)
  | Some i => (take i slug, drop (S i) slug, slug)
  end.

(** [NormalizeTags], of the items of the package. *)
Definition NormalizeTags (tags : list gostring) : list gostring :=
  (fun tag => Slugify tag) <$> tags.

End Unicode.

(** The restriction of Go's [unicode] functions to ASCII (their fast path
    for [r <= unicode.MaxASCII]); every other code point is taken to be
    neither a letter nor a number. *)
Definition ascii_IsNumber (r : rune) : bool :=
  (chr "0" <=? r) && (r <=? chr "9").

Definition ascii_IsLetter (r : rune) : bool :=
  ((chr "A" <=? r) && (r <=? chr "Z")) || ((chr "a" <=? r) && (r <=? chr "z")).

Definition ascii_ToLower (r : rune) : rune :=
  if (chr "A" <=? r) && (r <=? chr "Z") then r + (chr "a" - chr "A") else r.

Definition ascii_Slugify : gostring -> Slug :=
  Slugify ascii_IsNumber ascii_IsLetter ascii_ToLower.

End Slug.


(* ================================================================== *)
(** ** The mapping package (ditaconv) *)

Module Regexp.

(** The part of Go's [regexp] syntax that the two expressions of
    [titelize] are written in: a sequence of items, each of which matches
    one code point or, for [Opt], possibly nothing. *)
Inductive item :=
| Lit (c : rune)      (* [c] *)
| Opt (c : rune)      (* [c?], greedy *)
| NotLit (c : rune).  (* [[^c]] *)

(** The match of [re] at the start of [s] that a leftmost-first matcher
    returns, as its number of code points: a greedy [c?] first tries to
    take [c] and gives it back if the rest then fails. *)
Fixpoint match_here (re : list item) (s : gostring) : option nat :=
  match re with
  | [] => Some 0%nat
  | Lit c :: re' =>
      match s with
      | x :: s' => if bool_decide (x = c) then S <$> match_here re' s' else None
      | [] => None
      end
  | NotLit c :: re' =>
      match s with
      | x :: s' => if bool_decide (x <> c) then S <$> match_here re' s' else None
      | [] => None
      end
  | Opt c :: re' =>
      match s with
      | x :: s' =>
          if bool_decide (x = c) then
            match match_here re' s' with
            | Some n => Some (S n)
            | None => match_here re' s
            end
          else match_here re' s
      | [] => match_here re' s
      end
  end.

(** [replace re repl s skip] copies [s], replacing each match found from
    left to right by [repl]; [skip] counts the code points of the current
    match that are still to be dropped.  (Neither expression of this
    package matches the empty string.) *)
Fixpoint replace (re : list item) (repl s : gostring) (skip : nat) : gostring :=
  match s with
  | [] => []
  | c :: s' =>
      match skip with
      | S k => replace re repl s' k
      | O =>
          match match_here re s with
          | Some (S k) => repl ++ replace re repl s' k
          | _ => c :: replace re repl s' 0%nat
          end
      end
  end.

(** [re.ReplaceAllString(src, repl)], for a [repl] without "$". *)
Definition ReplaceAllString (re : list item) (src repl : gostring) : gostring :=
  replace re repl src 0%nat.

End Regexp.

Module Ditaconv.

Import Regexp.

(** [regexp.MustCompile(` ?/ ?`)] *)
Definition rxOr : list item := [Opt (chr " "); Lit (chr "/"); Opt (chr " ")].

(** [regexp.MustCompile(`(?:[^\^]) ?& ?`)] *)
Definition rxAnd : list item :=
  [NotLit (chr "^"); Opt (chr " "); Lit (chr "&"); Opt (chr " ")].

(** replace / and & inside the title *)
Definition titelize (title : gostring) : gostring :=
  let title := ReplaceAllString rxOr title (str " or ") in
  let title := ReplaceAllString rxAnd title (str " and ") in
  title.

(** The fields of [ditaindex.Topic] that the mapping reads or writes. *)
Record Topic := mkTopic {
  Filename : gostring;
  Title : gostring;
  ShortTitle : gostring
}.

(** A [*ditaindex.Topic] is an address; the store gives the topic each
    address holds.  Assigning to a field of [topic] updates the store, and
    every holder of the address sees the update. *)
Abbreviation ptr := nat.
Abbreviation store := (ptr -> Topic).

(** The errors that [CreateMapping] collects. *)
Inductive error :=
| ClashingTitle (title file other : gostring)
| TitleMissing (file : gostring).

(** The double quote that the error texts put around titles and file
    names. *)
Definition quote : rune := 0x22.

(** The text that [fmt.Errorf] gives each error. *)
Definition Error (e : error) : gostring :=
  match e with
  | ClashingTitle title file other =>
      str "clashing title " ++ [quote] ++ title ++ [quote]
      ++ str " in " ++ [quote] ++ file ++ [quote]
      ++ str " and " ++ [quote] ++ other ++ [quote]
  | TitleMissing file =>
      str "title missing in " ++ [quote] ++ file ++ [quote]
  end.

(** The variables of [CreateMapping] that its two loops update, and the
    store behind the topic addresses. *)
Record state := mkState {
  heap : store;
  byslug : gmap Slug.Slug ptr;
  bytopic : gmap ptr Slug.Slug;
  errors : list error
}.

(** [Mapping], without its [Index] and [Rules] fields; [Topics] holds
    the topics as the mapping leaves them. *)
Record Mapping := mkMapping {
  Topics : store;
  BySlug : gmap Slug.Slug ptr;
  ByTopic : gmap ptr Slug.Slug
}.

(** The invariant of [Mapping]: [BySlug] and [ByTopic] are each other's
    inverse. *)
Definition Bijection (bs : gmap Slug.Slug ptr) (bt : gmap ptr Slug.Slug) : Prop :=
  forall slug topic, bs !! slug = Some topic <-> bt !! topic = Some slug.

(** A topic with its title and short title normalized, as the first
    loop leaves it. *)
Definition normalized (t : Topic) : Topic :=
  mkTopic (Filename t) (titelize (Title t)) (titelize (ShortTitle t)).

(** The topics under the identifiers are topics of the list. *)
Definition Within (l : list ptr) (st : state) : Prop :=
  forall slug topic, byslug st !! slug = Some topic -> topic ∈ l.

(** The invariant, on the variables of [CreateMapping]. *)
Definition Inv (st : state) : Prop := Bijection (byslug st) (bytopic st).

Section Fedwiki.

(** [fedwiki.Slugify] *)
Variable Slugify : gostring -> Slug.Slug.

(** The body of the first loop: assign slugs to the topics. *)
Definition assign (st : state) (topic : ptr) : state :=
  let t := heap st topic in
  let t := mkTopic (Filename t) (titelize (Title t)) (ShortTitle t) in
  let t := mkTopic (Filename t) (Title t) (titelize (ShortTitle t)) in
  let heap1 : store := <[topic := t]> (heap st) in
  let slug := Slugify (Title t) in
  match byslug st !! slug with
  | Some other =>
      mkState heap1 (byslug st) (bytopic st)
        (errors st ++ [ClashingTitle (Title t) (Filename t) (Filename (heap1 other))])
  | None =>
      if bool_decide (Title t = []) then
        mkState heap1 (byslug st) (bytopic st)
          (errors st ++ [TitleMissing (Filename t)])
      else
        mkState heap1 (<[slug := topic]> (byslug st))
          (<[topic := slug]> (bytopic st)) (errors st)
  end.

(** The body of the second loop, run when the iteration over [byslug]
    produces the key [prev]: promote to shorter titles, if possible.  A
    key that is not in the map when its turn comes is not produced. *)
Definition promote (st : state) (prev : Slug.Slug) : state :=
  match byslug st !! prev with
  | None => st
  | Some topic =>
      let t := heap st topic in
      if bool_decide (ShortTitle t = []) || (len (Title t) <=? len (ShortTitle t))
      then st
      else
        let slug := Slugify (ShortTitle t) in
        match byslug st !! slug with
        | Some _ => st
        | None =>
            let t := mkTopic (Filename t) (ShortTitle t) (ShortTitle t) in
            let t := mkTopic (Filename t) (Title t) [] in
            mkState (<[topic := t]> (heap st) : store)
              (<[slug := topic]> (delete prev (byslug st)))
              (<[topic := slug]> (bytopic st))
              (errors st)
        end
  end.

(** The state after the first loop.  [topics] lists the values of
    [index.Topics] in the order in which [range] produces them. *)
Definition assign_all (topics : list ptr) (h : store) : state :=
  fold_left assign topics (mkState h ∅ ∅ []).

(** The state after the second loop.  [keys] lists the keys that the
    iteration over [byslug] produces, in that order. *)
Definition promote_all (keys : list Slug.Slug) (st : state) : state :=
  fold_left promote keys st.

Definition CreateMapping (topics : list ptr) (keys : list Slug.Slug) (h : store)
  : Mapping * list error :=
  let st := promote_all keys (assign_all topics h) in
  (mkMapping (heap st) (byslug st) (bytopic st), errors st).

(** Every identifier is the slug of the title of its topic, and that
    title is not empty. *)
Definition Titled (st : state) : Prop :=
  forall slug topic, byslug st !! slug = Some topic ->
    slug = Slugify (Title (heap st topic)) /\ Title (heap st topic) <> [].

End Fedwiki.

End Ditaconv.

(* ================================================================== *)
(** ** module/dita/convert.go *)

Module Dita.

(** A Go [error], by its message. *)
Abbreviation error := gostring.

(** The fields of [ditaconvert.Topic] that the conversion reads.
    [Original] is [None] for a nil pointer and otherwise holds what
    [topic.Original.ShortDesc.Text()] returns. *)
Record Topic := mkTopic {
  Title : gostring;
  Modified : Z;
  Synopsis : gostring;
  Raw : gostring;
  Original : option gostring
}.

Abbreviation ptr := nat.
Abbreviation store := (ptr -> Topic).

(** [ditaconvert.Index]: the topics by canonical path. *)
Record Index := mkIndex {
  Topics : gmap gostring ptr
}.

(** [TitleMapping], of which the conversion reads [ByTopic]. *)
Record TitleMapping := mkTitleMapping {
  ByTopic : gmap ptr Slug.Slug
}.

(** The two methods that [Convert] registers as custom rules. *)
Inductive Callback := ToSlug | InlineImage.

(** The fields of [ditaconvert.Context] that the conversion touches;
    [Custom] is [context.Rules.Custom] and [Output] the text written to
    [context.Output] so far. *)
Record Context := mkContext {
  ctxIndex : Index;
  DecodingPath : gostring;
  Errors : list error;
  Output : gostring;
  Custom : gmap string Callback
}.

(** [kb.Item], with the three keys that [kb.HTML] sets. *)
Record Item := mkItem {
  item_type : gostring;
  item_id : gostring;
  item_text : gostring
}.

(** [kb.Page] *)
Record Page := mkPage {
  page_Slug : Slug.Slug;
  page_Title : gostring;
  page_Modified : Z;
  page_Synopsis : gostring;
  Story : list Item
}.

(** [PageConversion]; [convContext] is the context that the [Context]
    field points to. *)
Record PageConversion := mkPageConversion {
  Mapping : TitleMapping;
  convSlug : Slug.Slug;
  convIndex : Index;
  convTopic : ptr;
  convContext : Context
}.

Definition set_Context (conversion : PageConversion) (context : Context)
  : PageConversion :=
  mkPageConversion (Mapping conversion) (convSlug conversion)
    (convIndex conversion) (convTopic conversion) context.

Definition add_error (context : Context) (e : error) : Context :=
  mkContext (ctxIndex context) (DecodingPath context) (Errors context ++ [e])
    (Output context) (Custom context).

Definition set_Custom (context : Context) (tag : string) (f : Callback)
  : Context :=
  mkContext (ctxIndex context) (DecodingPath context) (Errors context)
    (Output context) (<[tag := f]> (Custom context)).

(** The reference has a scheme in the sense of RFC 3986: a letter, then
    letters, digits, "+", "-" or ".", then ":". *)
Definition is_alpha (r : rune) : bool :=
  ((chr "A" <=? r) && (r <=? chr "Z")) || ((chr "a" <=? r) && (r <=? chr "z")).

Definition is_scheme_char (r : rune) : bool :=
  is_alpha r || ((chr "0" <=? r) && (r <=? chr "9"))
  || bool_decide (r = chr "+") || bool_decide (r = chr "-")
  || bool_decide (r = chr ".").

Fixpoint scheme_tail (url : gostring) : bool :=
  match url with
  | [] => false
  | r :: url' =>
      bool_decide (r = chr ":") || (is_scheme_char r && scheme_tail url')
  end.

Definition scheme_qualified (url : gostring) : bool :=
  match url with
  | [] => false
  | r :: url' => is_alpha r && scheme_tail url'
  end.

Section Collaborators.

(** The topics behind the addresses. *)
Variable mem : store.

(** [ditaconvert.SplitLink], [ditaconvert.CanonicalPath] and
    [ditaconvert.ExtractTitle]. *)
Variable SplitLink : gostring -> gostring * gostring.
Variable CanonicalPath : gostring -> gostring.
Variable ExtractTitle : gostring -> gostring -> gostring * option error.

(** Go's [path.Dir] and [path.Join] (of two elements). *)
Variable path_Dir : gostring -> gostring.
Variable path_Join : gostring -> gostring -> gostring.

(** [ditaconvert.NewConversion] and the [Run] method of the context,
    which returns the context as the run leaves it and its error. *)
Variable NewConversion : Index -> ptr -> Context.
Variable Run : Context -> Context * option error.

(** [conversion.RelatedLinksAsHTML()], and the identifiers that the
    successive calls of [kb.NewID] return. *)
Variable RelatedLinksAsHTML : PageConversion -> gostring.
Variable NewID : nat -> gostring.

(** [kb.HTML], with the identifier that [NewID] returns to it. *)
Definition HTML (id text : gostring) : Item := mkItem (str "html") id text.

Definition ResolveLinkInfo (conversion : PageConversion) (url : gostring)
  : (gostring * gostring * gostring * bool) * PageConversion :=
  if HasPrefix url (str "http:") || HasPrefix url (str "https:") then
    ((url, [], [], false), conversion)
  else
    let context := convContext conversion in
    let '(url, selector) := SplitLink url in
    if bool_decide (url = []) then
      ((str "#" ++ selector, [], [], true), conversion)
    else
      let name := DecodingPath context in
      let name := if bool_decide (url <> [])
                  then path_Join (path_Dir (DecodingPath context)) url
                  else name in
      match Topics (ctxIndex context) !! CanonicalPath name with
      | None =>
          let context := add_error context
            (str "did not find topic " ++ name ++ str " [" ++ url ++ selector
             ++ str "]") in
          (([], [], [], false), set_Context conversion context)
      | Some topic =>
          let '(title, context) :=
            if bool_decide (selector <> []) then
              match ExtractTitle (Raw (mem topic)) selector with
              | (title, Some err) =>
                  (title, add_error context
                     (str "unable to extract title from " ++ name ++ str " ["
                      ++ url ++ selector ++ str "]: " ++ err))
              | (title, None) => (title, context)
              end
            else ([], context) in
          let '(title, synopsis) :=
            match Original (mem topic) with
            | Some shortdesc =>
                if bool_decide (title = []) then
                  (Title (mem topic),
                   if bool_decide (selector = []) then shortdesc else [])
                else (title, [])
            | None => (title, [])
            end in
          let conversion := set_Context conversion context in
          match ByTopic (Mapping conversion) !! topic with
          | None => (([], title, synopsis, false), conversion)
          | Some slug =>
              if bool_decide (selector <> []) then
                ((slug ++ str "#" ++ selector, title, synopsis, true), conversion)
              else ((slug, title, synopsis, true), conversion)
          end
      end.

(** [Convert] returns the page, the errors of the context and the fatal
    error ([None] for nil). *)
Definition Convert (conversion : PageConversion)
  : Page * list error * option error :=
  let context := NewConversion (convIndex conversion) (convTopic conversion) in
  let topic := mem (convTopic conversion) in
  let page := mkPage (convSlug conversion) (Title topic) (Modified topic)
                (Synopsis topic) [] in
  let context := set_Custom context "a" ToSlug in
  let context := set_Custom context "img" InlineImage in
  let conversion := set_Context conversion context in
  match Run context with
  | (context, Some err) => (page, [], Some err)
  | (context, None) =>
      let conversion := set_Context conversion context in
      let story := Story page ++ [HTML (NewID 0%nat) (Output context)] in
      let story := story ++ [HTML (NewID 1%nat) (RelatedLinksAsHTML conversion)] in
      (mkPage (page_Slug page) (page_Title page) (page_Modified page)
         (page_Synopsis page) story,
       Errors context, None)
  end.

End Collaborators.

End Dita.

(* ================================================================== *)
(** ** Sample collaborators

    Plain versions of the functions that the conversion takes from other
    packages, to run the definitions above on sample inputs. *)

Module Sample.

(** Splitting on a separator. *)
Fixpoint split_on (sep : rune) (s : gostring) : list gostring :=
  match s with
  | [] => [[]]
  | c :: s' =>
      if bool_decide (c = sep) then [] :: split_on sep s'
      else match split_on sep s' with
           | [] => [[c]]
           | w :: ws => (c :: w) :: ws
           end
  end.

Fixpoint join_with (sep : rune) (ws : list gostring) : gostring :=
  match ws with
  | [] => []
  | [w] => w
  | w :: ws' => w ++ sep :: join_with sep ws'
  end.

(** The elements of a relative slash-separated path after lexical
    cleaning, last element first: "." and empty elements go away, ".."
    removes the element before it. *)
Definition clean_step (stack : list gostring) (elem : gostring) : list gostring :=
  if bool_decide (elem = []) || bool_decide (elem = str ".") then stack
  else if bool_decide (elem = str "..") then
    match stack with
    | top :: stack' =>
        if bool_decide (top = str "..") then elem :: stack else stack'
    | [] => [elem]
    end
  else elem :: stack.

(** [path.Clean] on relative paths. *)
Definition Clean (p : gostring) : gostring :=
  match rev (fold_left clean_step (split_on (chr "/") p) []) with
  | [] => str "."
  | elems => join_with (chr "/") elems
  end.

(** [path.Dir] on relative paths: drop the last element, then clean. *)
Definition Dir (p : gostring) : gostring :=
  match rev (split_on (chr "/") p) with
  | [] => str "."
  | _ :: elems => Clean (join_with (chr "/") (rev elems))
  end.

(** [path.Join] of two elements. *)
Definition Join (a b : gostring) : gostring :=
  if bool_decide (a = []) && bool_decide (b = []) then []
  else if bool_decide (a = []) then Clean b
  else if bool_decide (b = []) then Clean a
  else Clean (a ++ chr "/" :: b).

(** A link is split at its first "#". *)
Definition SplitLink (link : gostring) : gostring * gostring :=
  match split_on (chr "#") link with
  | [] => ([], [])
  | p :: rest => (p, join_with (chr "#") rest)
  end.

Definition CanonicalPath (name : gostring) : gostring := name.

Definition ExtractTitle (raw selector : gostring) : gostring * option Dita.error :=
  ([], Some (str "not found")).

(** A run of the rewriter that fails. *)
Definition Run_fails (context : Dita.Context) : Dita.Context * option Dita.error :=
  (context, Some (str "unexpected end element")).

(** The topics "a.xml" (address 0, identifier "alpha") and "sub/b.xml"
    (address 1, identifier "beta"), and the conversion of the second. *)
Definition mem : Dita.store := fun p =>
  match p with
  | O => Dita.mkTopic (str "Alpha") 0 (str "About alpha") (str "<topic/>") (Some (str "About alpha"))
  | _ => Dita.mkTopic (str "Beta") 0 (str "About beta") (str "<topic/>") (Some (str "About beta"))
  end.

Definition index : Dita.Index :=
  Dita.mkIndex (<[str "a.xml" := 0%nat]> (<[str "sub/b.xml" := 1%nat]> ∅)).

Definition mapping : Dita.TitleMapping :=
  Dita.mkTitleMapping (<[0%nat := str "alpha"]> (<[1%nat := str "beta"]> ∅)).

Definition NewConversion (index : Dita.Index) (topic : Dita.ptr) : Dita.Context :=
  Dita.mkContext index
    (match topic with O => str "a.xml" | _ => str "sub/b.xml" end) [] [] ∅.

Definition conversion : Dita.PageConversion :=
  Dita.mkPageConversion mapping (str "beta") index 1%nat (NewConversion index 1%nat).

Definition RelatedLinksAsHTML (conversion : Dita.PageConversion) : gostring := [].

Definition NewID (n : nat) : gostring := str "id" ++ replicate n (chr "i").

Definition ResolveLinkInfo :=
  Dita.ResolveLinkInfo mem SplitLink CanonicalPath ExtractTitle Dir Join.

(** A store from the list of its topics: address [p] holds the topic of
    index [p]. *)
Definition store_of (ts : list Ditaconv.Topic) : Ditaconv.store :=
  fun p => nth p ts (Ditaconv.mkTopic [] [] []).

(** Two topics, the first with a short title. *)
Definition guide : Ditaconv.store := store_of [
  Ditaconv.mkTopic (str "a.xml") (str "Installation Guide") (str "Install");
  Ditaconv.mkTopic (str "b.xml") (str "Overview") []
].

(** Two topics whose titles are normalized to the same text. *)
Definition setup : Ditaconv.store := store_of [
  Ditaconv.mkTopic (str "a.xml") (str "Setup / Install") [];
  Ditaconv.mkTopic (str "b.xml") (str "Setup or Install") []
].

(** Two topics without a title. *)
Definition untitled : Ditaconv.store := store_of [
  Ditaconv.mkTopic (str "a.xml") [] [];
  Ditaconv.mkTopic (str "b.xml") [] []
].

(** A topic whose title is a dash, then a topic without a title. *)
Definition dash : Ditaconv.store := store_of [
  Ditaconv.mkTopic (str "a.xml") (str "-") [];
  Ditaconv.mkTopic (str "b.xml") [] []
].

End Sample.

(* ================================================================== *)
(** ** Facts about [Slugify] *)

Lemma assoc_elem_of {V} r (v : V) table :
  assoc r table = Some v -> (r, v) ∈ table.
Proof.
  induction table as [|[k w] table IH]; simpl; [discriminate|].
  case_bool_decide as Hk.
  - intros [= ->]. subst k. left.
  - intros H. right. auto.
Qed.

Lemma runename_table_plain :
  forallb (fun e : rune * string => forallb Slug.plain (str e.2) && nonempty (str e.2))
          Slug.runename_table = true.
Proof. vm_compute. reflexivity. Qed.

(** Every name of the table is a non-empty word of lowercase ASCII letters
    and digits. *)
Lemma runename_plain r name :
  Slug.runename r = Some name ->
  name <> [] /\ Forall (fun c => Slug.plain c = true) name.
Proof.
  unfold Slug.runename. destruct (assoc r Slug.runename_table) as [v|] eqn:E;
    simpl; [|discriminate].
  intros [= <-]. apply assoc_elem_of in E.
  apply (proj1 (list_elem_of_In _ _)) in E.
  pose proof (proj1 (forallb_forall _ _) runename_table_plain _ E) as H.
  simpl in H. apply andb_true_iff in H as [Hp Hn]. split.
  - destruct (str v); [discriminate|done].
  - apply List.Forall_forall. intros c Hc.
    exact (proj1 (forallb_forall _ _) Hp c Hc).
Qed.

Lemma plain_word c : Slug.plain c = true -> Slug.word c = true.
Proof.
  intros H. unfold Slug.word, Slug.is_separator.
  repeat case_bool_decide; subst; try done; vm_compute in H; discriminate.
Qed.

Lemma adjacent_ok_snoc s x :
  Slug.adjacent_ok (s ++ [x]) =
  Slug.adjacent_ok s
  && match last s with Some a => Slug.pair_ok a x | None => true end.
Proof.
  induction s as [|a s IH]; [done|].
  destruct s as [|b s]; [simpl; by rewrite andb_true_r|].
  change ((a :: b :: s) ++ [x]) with (a :: (b :: s) ++ [x]).
  change (Slug.adjacent_ok (a :: (b :: s) ++ [x]))
    with (Slug.pair_ok a b && Slug.adjacent_ok ((b :: s) ++ [x])).
  rewrite IH. rewrite last_cons_cons.
  change (Slug.adjacent_ok (a :: b :: s))
    with (Slug.pair_ok a b && Slug.adjacent_ok (b :: s)).
  by rewrite andb_assoc.
Qed.

Lemma Index_None s c : Slug.Index s c = None <-> c ∉ s.
Proof.
  induction s as [|x s IH]; simpl.
  - split; [intros _; apply not_elem_of_nil|done].
  - case_bool_decide as Hx.
    + split; [done|]. intros H. exfalso. apply H. subst. left.
    + destruct (Slug.Index s c) eqn:E; simpl.
      * split; [done|]. intros H. exfalso.
        apply not_elem_of_cons in H as [_ H]. apply IH in H. done.
      * split; [|done]. intros _. apply not_elem_of_cons. split; [done|].
        by apply IH.
Qed.

Lemma Index_Some s c i :
  Slug.Index s c = Some i ->
  s = take i s ++ c :: drop (S i) s /\ c ∉ take i s.
Proof.
  revert i. induction s as [|x s IH]; intros i; simpl; [done|].
  case_bool_decide as Hx.
  - intros [= <-]. simpl. subst. split; [by rewrite drop_0|].
    apply not_elem_of_nil.
  - destruct (Slug.Index s c) as [j|] eqn:E; simpl; [|done].
    intros [= <-]. destruct (IH j eq_refl) as [Hs Hnot]. simpl. split.
    + by rewrite <- Hs.
    + apply not_elem_of_cons. split; [congruence|done].
Qed.

Lemma Index_app s c t : c ∉ s -> Slug.Index (s ++ c :: t) c = Some (length s).
Proof.
  induction s as [|x s IH]; intros H; simpl.
  - by rewrite bool_decide_eq_true_2.
  - apply not_elem_of_cons in H as [Hx H].
    rewrite bool_decide_eq_false_2 by congruence. by rewrite IH.
Qed.

Section SlugifyFacts.

Variables IsNumber IsLetter : rune -> bool.
Variable ToLower : rune -> rune.

Local Abbreviation alnum r := (IsNumber r || IsLetter r).
Local Abbreviation step := (Slug.Slugify_step IsNumber IsLetter ToLower).
Local Abbreviation loop := (Slug.Slugify_loop IsNumber IsLetter ToLower).
Local Abbreviation Slugify := (Slug.Slugify IsNumber IsLetter ToLower).
Local Abbreviation ValidateSlug := (Slug.ValidateSlug IsNumber IsLetter ToLower).
Local Abbreviation unnamed := (Slug.unnamed IsNumber IsLetter).
Local Abbreviation settled := (Slug.settled IsNumber IsLetter ToLower).
Local Abbreviation plain := Slug.plain.

Lemma loop_snoc s r : loop (s ++ [r]) = step (loop s) r.
Proof. unfold Slug.Slugify_loop. by rewrite fold_left_app. Qed.

Lemma loop_unnamed s :
  Forall (fun r => unnamed r = true) s -> Slug.slug (loop s) = [].
Proof.
  induction s as [|r s IH] using rev_ind; [done|].
  intros [Hs Hr]%Forall_app. rewrite Forall_singleton in Hr.
  rewrite loop_snoc. specialize (IH Hs).
  unfold Slug.unnamed in Hr.
  apply andb_true_iff in Hr as [Hr Hname].
  apply andb_true_iff in Hr as [Hal Hsep].
  apply negb_true_iff in Hal, Hsep.
  unfold Slug.Slugify_step. rewrite Hal, Hsep.
  destruct (Slug.is_dash r); [exact IH|].
  apply bool_decide_eq_true in Hname. rewrite Hname. exact IH.
Qed.

(** C10. [Slugify] is a total function whose result is never empty; on
    the empty string, and on a string made only of characters that leave
    no trace in a slug, the result is the one-character slug "-". *)
Theorem Slugify_never_empty (s : gostring) :
  Slugify s <> []
  /\ Slugify [] = str "-"
  /\ (Forall (fun r => unnamed r = true) s -> Slugify s = str "-").
Proof.
  split; [|split].
  - unfold Slug.Slugify. case_bool_decide as H; [done|].
    intros E. apply H. by rewrite E.
  - reflexivity.
  - intros H. unfold Slug.Slugify. by rewrite (loop_unnamed s H).
Qed.

(** What the proof of idempotence uses of Go's [unicode] package: the
    lowercase form of a letter or number is again a letter or number and
    is its own lowercase form; lowercase ASCII letters and ASCII digits
    are letters or numbers in lowercase form; "-" is neither a letter nor
    a number. *)
Hypothesis lower_alnum : forall r, alnum r = true -> alnum (ToLower r) = true.
Hypothesis lower_lower :
  forall r, alnum r = true -> ToLower (ToLower r) = ToLower r.
Hypothesis plain_alnum : forall c, plain c = true -> alnum c = true.
Hypothesis plain_lower : forall c, plain c = true -> ToLower c = c.
Hypothesis dash_not_alnum : alnum (chr "-") = false.

Lemma step_settled b c :
  settled c ->
  step b c =
  Slug.Buffer ((if Slug.emitdash b && negb (Slug.cutdash b)
                then Slug.slug b ++ [chr "-"] else Slug.slug b) ++ [c])
              false false.
Proof.
  intros [Ha Hl]. unfold Slug.Slugify_step. rewrite Ha. by rewrite Hl.
Qed.

Lemma step_dash b :
  step b (chr "-") = Slug.Buffer (Slug.slug b) (Slug.cutdash b) true.
Proof. unfold Slug.Slugify_step. by rewrite dash_not_alnum. Qed.

Lemma run_settled w σ :
  Forall settled w ->
  fold_left step w (Slug.Buffer σ false false) = Slug.Buffer (σ ++ w) false false.
Proof.
  revert σ. induction w as [|c w IH]; intros σ Hw; simpl.
  - by rewrite app_nil_r.
  - apply Forall_cons in Hw as [Hc Hw].
    rewrite (step_settled _ c Hc). simpl. rewrite (IH _ Hw).
    by rewrite <- app_assoc.
Qed.

Lemma run_word c w b :
  Forall settled (c :: w) ->
  fold_left step (c :: w) b =
  Slug.Buffer ((if Slug.emitdash b && negb (Slug.cutdash b)
                then Slug.slug b ++ [chr "-"] else Slug.slug b) ++ c :: w)
              false false.
Proof.
  intros [Hc Hw]%Forall_cons. simpl. rewrite (step_settled _ c Hc).
  rewrite (run_settled _ _ Hw). by rewrite <- app_assoc.
Qed.

Lemma plain_settled c : plain c = true -> settled c.
Proof. intros H. split; auto. Qed.

(** Running the loop again on the slug built so far rebuilds that slug,
    with the same [cutdash] and no pending dash. *)
Lemma loop_fixed s :
  loop (Slug.slug (loop s)) =
  Slug.Buffer (Slug.slug (loop s)) (Slug.cutdash (loop s)) false.
Proof.
  induction s as [|r s IH] using rev_ind; [reflexivity|].
  rewrite loop_snoc. destruct (loop s) as [σ c e]. simpl in IH.
  unfold Slug.Slugify_step at 1 2 3. simpl.
  destruct (alnum r) eqn:Ha.
  - assert (settled (ToLower r)) as Hl by (split; auto).
    simpl. destruct (e && negb c) eqn:Hec.
    + apply andb_true_iff in Hec as [_ Hc]. apply negb_true_iff in Hc. subst c.
      rewrite !loop_snoc, IH, step_dash. by rewrite (step_settled _ _ Hl).
    + rewrite loop_snoc, IH. by rewrite (step_settled _ _ Hl).
  - destruct (Slug.is_separator r) eqn:Hsep.
    + simpl. rewrite loop_snoc, IH. unfold Slug.Slugify_step.
      by rewrite Ha, Hsep.
    + destruct (Slug.is_dash r); [exact IH|].
      destruct (Slug.runename r) as [name|] eqn:Hname; [|exact IH].
      apply runename_plain in Hname as [Hne Hpl].
      destruct name as [|a w]; [done|].
      assert (Forall settled (a :: w)) as Hw.
      { eapply Forall_impl; [exact Hpl|]. intros x Hx. by apply plain_settled. }
      simpl. unfold Slug.Slugify_loop in *. rewrite fold_left_app.
      destruct c; simpl negb; cbv iota.
      * rewrite IH. by rewrite (run_word _ _ _ Hw).
      * rewrite fold_left_app, IH. simpl fold_left at 2. rewrite step_dash.
        by rewrite (run_word _ _ _ Hw).
Qed.

(** C9. Slugifying a slug that [Slugify] produced gives that slug back, so
    every such slug passes [ValidateSlug]. *)
Theorem Slugify_idempotent (s : gostring) :
  Slugify (Slugify s) = Slugify s /\ ValidateSlug (Slugify s) = None.
Proof.
  assert (Slugify (Slugify s) = Slugify s) as Hid.
  { unfold Slug.Slugify at 2 3. case_bool_decide as He.
    - unfold Slug.Slugify, Slug.Slugify_loop. simpl. by rewrite step_dash.
    - unfold Slug.Slugify. rewrite loop_fixed. simpl.
      by rewrite bool_decide_eq_false_2. }
  split; [exact Hid|].
  unfold Slug.ValidateSlug. rewrite Hid.
  rewrite bool_decide_eq_false_2.
  - rewrite bool_decide_eq_false_2; [reflexivity|]. intros H. by apply H.
  - intros H. apply length_zero_iff_nil in H.
    unfold Slug.Slugify in H. case_bool_decide as He; [discriminate H|].
    apply He. by rewrite H.
Qed.

(** *** How the loop composes *)

(** The loop only appends to the slug, and what it appends does not
    depend on the slug built so far. *)
Lemma step_append σ c e x :
  step (Slug.Buffer σ c e) x =
  Slug.Buffer (σ ++ Slug.slug (step (Slug.Buffer [] c e) x))
    (Slug.cutdash (step (Slug.Buffer [] c e) x))
    (Slug.emitdash (step (Slug.Buffer [] c e) x)).
Proof.
  unfold Slug.Slugify_step. simpl.
  destruct (alnum x).
  - destruct (e && negb c); simpl; by rewrite <- ?app_assoc.
  - destruct (Slug.is_separator x); [done|].
    destruct (Slug.is_dash x); simpl; [by rewrite app_nil_r|].
    destruct (Slug.runename x); simpl; [|by rewrite app_nil_r].
    destruct c; simpl; by rewrite <- ?app_assoc.
Qed.

Lemma run_append s : forall σ c e,
  fold_left step s (Slug.Buffer σ c e) =
  Slug.Buffer (σ ++ Slug.slug (fold_left step s (Slug.Buffer [] c e)))
    (Slug.cutdash (fold_left step s (Slug.Buffer [] c e)))
    (Slug.emitdash (fold_left step s (Slug.Buffer [] c e))).
Proof.
  induction s as [|x s IH]; intros σ c e; simpl.
  - by rewrite app_nil_r.
  - rewrite (step_append σ c e x).
    destruct (step (Slug.Buffer [] c e) x) as [δ c' e']. simpl.
    rewrite (IH (σ ++ δ)), (IH δ). simpl. by rewrite app_assoc.
Qed.

Lemma loop_separator a sep b :
  alnum sep = false -> Slug.is_separator sep = true ->
  Slug.slug (loop (a ++ sep :: b)) =
  Slug.slug (loop a) ++ sep :: Slug.slug (loop b).
Proof.
  intros Ha Hsep. unfold Slug.Slugify_loop. rewrite fold_left_app. simpl.
  destruct (fold_left step a (Slug.Buffer [] true false)) as [σ c e].
  unfold Slug.Slugify_step at 2. rewrite Ha, Hsep. simpl.
  rewrite run_append. simpl. by rewrite <- app_assoc.
Qed.

Lemma Slugify_separator_eq a b :
  alnum (chr "=") = false ->
  Slugify (a ++ chr "=" :: b) =
  Slug.slug (loop a) ++ chr "=" :: Slug.slug (loop b).
Proof.
  intros Ha. unfold Slug.Slugify.
  rewrite (loop_separator a (chr "=") b Ha eq_refl).
  rewrite bool_decide_eq_false_2; [done|].
  rewrite length_app. simpl. lia.
Qed.

(** X3. [Slugify] works part by part: for a separator ("/" or "=", which
    are no letters or numbers), the slug of [a ++ sep :: b] is what the
    loop builds for [a], the separator, and what the loop builds for
    [b]. *)
Theorem Slugify_separator (a b : gostring) (sep : rune) :
  alnum sep = false -> Slug.is_separator sep = true ->
  Slugify (a ++ sep :: b) = Slug.slug (loop a) ++ sep :: Slug.slug (loop b).
Proof.
  intros Ha Hsep. unfold Slug.Slugify. rewrite (loop_separator a sep b Ha Hsep).
  rewrite bool_decide_eq_false_2; [done|].
  rewrite length_app. simpl. lia.
Qed.

(** *** Characters that leave no trace *)

Lemma step_unnamed b x :
  unnamed x = true ->
  step b x = Slug.Buffer (Slug.slug b) (Slug.cutdash b) true.
Proof.
  unfold Slug.unnamed. intros H.
  apply andb_true_iff in H as [H Hname].
  apply andb_true_iff in H as [Hal Hsep].
  apply negb_true_iff in Hal, Hsep.
  unfold Slug.Slugify_step. rewrite Hal, Hsep.
  destruct (Slug.is_dash x); [done|].
  apply bool_decide_eq_true in Hname. by rewrite Hname.
Qed.

Lemma run_unnamed d : forall b,
  Forall (fun r => unnamed r = true) d ->
  Slug.slug (fold_left step d b) = Slug.slug b
  /\ Slug.cutdash (fold_left step d b) = Slug.cutdash b.
Proof.
  induction d as [|x d IH]; intros b Hd; [done|].
  apply Forall_cons in Hd as [Hx Hd]. simpl.
  destruct (IH (step b x) Hd) as [-> ->]. by rewrite (step_unnamed b x Hx).
Qed.

(** With [cutdash] set, a pending dash makes no difference. *)
Lemma step_cut σ e x :
  step (Slug.Buffer σ true e) x = step (Slug.Buffer σ true false) x.
Proof.
  unfold Slug.Slugify_step. simpl. by rewrite !andb_false_r.
Qed.

Lemma run_cut s σ e :
  Slug.slug (fold_left step s (Slug.Buffer σ true e)) =
  Slug.slug (fold_left step s (Slug.Buffer σ true false)).
Proof. destruct s as [|x s]; [done|]. simpl. by rewrite step_cut. Qed.

(** X4. Characters that leave no trace (spaces, dashes, commas, dots,
    underscores, symbols without a name) change nothing at the start and
    at the end of the text. *)
Theorem Slugify_trim (d s d' : gostring) :
  Forall (fun r => unnamed r = true) d ->
  Forall (fun r => unnamed r = true) d' ->
  Slugify (d ++ s ++ d') = Slugify s.
Proof.
  intros Hd Hd'.
  assert (Slug.slug (loop (d ++ s ++ d')) = Slug.slug (loop s)) as H.
  { unfold Slug.Slugify_loop. rewrite !fold_left_app.
    destruct (run_unnamed d' (fold_left step s
                (fold_left step d (Slug.Buffer [] true false))) Hd') as [-> _].
    destruct (run_unnamed d (Slug.Buffer [] true false) Hd) as [Hs Hc].
    destruct (fold_left step d (Slug.Buffer [] true false)) as [σ c e].
    simpl in Hs, Hc. subst σ c. apply run_cut. }
  unfold Slug.Slugify. by rewrite H.
Qed.

Lemma run_unnamed_pending d : forall b,
  d <> [] -> Forall (fun r => unnamed r = true) d ->
  fold_left step d b = Slug.Buffer (Slug.slug b) (Slug.cutdash b) true.
Proof.
  induction d as [|x d IH]; intros b Hne Hd; [done|].
  apply Forall_cons in Hd as [Hx Hd]. simpl. rewrite (step_unnamed b x Hx).
  destruct d as [|y d]; [done|]. by rewrite IH.
Qed.

(** X21. A run of characters that leave no trace counts as one: any two
    such runs, not empty, give the same slug in the same place. *)
Theorem Slugify_collapse (a d d' b : gostring) :
  d <> [] -> d' <> [] ->
  Forall (fun r => unnamed r = true) d ->
  Forall (fun r => unnamed r = true) d' ->
  Slugify (a ++ d ++ b) = Slugify (a ++ d' ++ b).
Proof.
  intros Hne Hne' Hd Hd'.
  assert (loop (a ++ d ++ b) = loop (a ++ d' ++ b)) as H.
  { unfold Slug.Slugify_loop. rewrite !fold_left_app.
    by rewrite (run_unnamed_pending d), (run_unnamed_pending d'). }
  unfold Slug.Slugify. by rewrite H.
Qed.

(** *** The characters of a slug *)

Lemma loop_alphabet s c :
  c ∈ Slug.slug (loop s) ->
  c = chr "-"
  \/ (Slug.is_separator c = true /\ c ∈ s)
  \/ (exists r, r ∈ s /\ alnum r = true /\ c = ToLower r)
  \/ plain c = true.
Proof.
  induction s as [|x s IH] using rev_ind.
  - intros H. by apply elem_of_nil in H.
  - rewrite loop_snoc.
    assert (c ∈ Slug.slug (loop s) ->
            c = chr "-"
            \/ (Slug.is_separator c = true /\ c ∈ s ++ [x])
            \/ (exists r, r ∈ s ++ [x] /\ alnum r = true /\ c = ToLower r)
            \/ plain c = true) as IH'.
    { intros Hc. destruct (IH Hc) as [?|[[? ?]|[(r & ? & ? & ?)|?]]]; auto.
      - right. left. split; [done|]. apply elem_of_app. by left.
      - right. right. left. exists r. split; [|done]. apply elem_of_app.
        by left. }
    destruct (loop s) as [σ cut e]. simpl in IH'.
    unfold Slug.Slugify_step. simpl.
    destruct (alnum x) eqn:Ha.
    + simpl. intros [Hc|Hc]%elem_of_app.
      * destruct (e && negb cut); [|by apply IH'].
        apply elem_of_app in Hc as [Hc|Hc]; [by apply IH'|].
        apply list_elem_of_singleton in Hc. by left.
      * apply list_elem_of_singleton in Hc. right. right. left. exists x.
        split; [|done]. apply elem_of_app. right. left.
    + destruct (Slug.is_separator x) eqn:Hsep.
      * simpl. intros [Hc|Hc]%elem_of_app; [by apply IH'|].
        apply list_elem_of_singleton in Hc. subst c. right. left.
        split; [done|]. apply elem_of_app. right. left.
      * destruct (Slug.is_dash x); [exact IH'|].
        destruct (Slug.runename x) as [name|] eqn:Hname; [|exact IH'].
        apply runename_plain in Hname as [_ Hpl].
        simpl. intros [Hc|Hc]%elem_of_app.
        -- destruct (negb cut); [|by apply IH'].
           apply elem_of_app in Hc as [Hc|Hc]; [by apply IH'|].
           apply list_elem_of_singleton in Hc. by left.
        -- right. right. right.
           rewrite List.Forall_forall in Hpl. apply Hpl.
           by apply list_elem_of_In.
Qed.

(** X2. Every character of a slug is a dash, a separator of the text,
    the lowercase form of a letter or number of the text, or a lowercase
    ASCII letter or digit (of the name of a symbol). *)
Theorem Slugify_alphabet (s : gostring) (c : rune) :
  c ∈ Slugify s ->
  c = chr "-"
  \/ (Slug.is_separator c = true /\ c ∈ s)
  \/ (exists r, r ∈ s /\ alnum r = true /\ c = ToLower r)
  \/ plain c = true.
Proof.
  unfold Slug.Slugify. case_bool_decide as He.
  - intros Hc. apply list_elem_of_singleton in Hc. by left.
  - apply loop_alphabet.
Qed.

(** *** The shape of a slug *)

Hypothesis separator_not_alnum :
  forall r, Slug.is_separator r = true -> alnum r = false.

(** The lowercase form of a letter or number belongs to a word. *)
Lemma lower_word r : alnum r = true -> Slug.word (ToLower r) = true.
Proof.
  intros Ha. apply lower_alnum in Ha. unfold Slug.word.
  apply andb_true_iff. split; apply negb_true_iff.
  - apply bool_decide_eq_false_2. intros E. rewrite E in Ha. congruence.
  - destruct (Slug.is_separator (ToLower r)) eqn:E; [|done].
    apply separator_not_alnum in E. congruence.
Qed.

Local Abbreviation shaped := Slug.shaped.

Lemma word_not_dash a : Slug.word a = true -> a <> chr "-".
Proof.
  unfold Slug.word. intros H ->. by rewrite bool_decide_eq_true_2 in H.
Qed.

Lemma pair_ok_word a x :
  a <> chr "-" -> Slug.word x = true -> Slug.pair_ok a x = true.
Proof.
  intros Ha Hx. unfold Slug.pair_ok.
  rewrite (bool_decide_eq_false_2 (a = chr "-")) by done.
  rewrite (bool_decide_eq_false_2 (x = chr "-")) by by apply word_not_dash.
  done.
Qed.

Lemma head_snoc_ne {A} (l : list A) x y :
  head l <> Some y -> (l = [] -> x <> y) -> head (l ++ [x]) <> Some y.
Proof. destruct l; simpl; [|done]. intros _ H [= E]. by apply H. Qed.

(** Appending a character of a word. *)
Lemma shaped_word σ c e x c' e' :
  shaped (Slug.Buffer σ c e) -> Slug.word x = true ->
  shaped (Slug.Buffer (σ ++ [x]) c' e').
Proof.
  intros (Hadj & Hhead & Hlast & _) Hx. unfold Slug.shaped. simpl in *.
  rewrite adjacent_ok_snoc, Hadj, last_snoc. repeat split.
  - destruct (last σ) as [a|] eqn:E; [|done]. simpl.
    apply pair_ok_word; [congruence|done].
  - apply head_snoc_ne; [done|]. intros _. by apply word_not_dash.
  - intros [= E]. by apply word_not_dash in Hx.
  - intros _. by exists x.
Qed.

(** Appending a dash and a character of a word after a word. *)
Lemma shaped_dash_word σ e x c' e' :
  shaped (Slug.Buffer σ false e) -> Slug.word x = true ->
  shaped (Slug.Buffer ((σ ++ [chr "-"]) ++ [x]) c' e').
Proof.
  intros (Hadj & Hhead & Hlast & Hopen) Hx. simpl in *.
  destruct (Hopen eq_refl) as (a & Ha & Hwa).
  unfold Slug.shaped. simpl.
  rewrite !adjacent_ok_snoc, Hadj, !last_snoc, Ha. repeat split.
  - simpl. unfold Slug.pair_ok. rewrite Hwa, Hx.
    rewrite (bool_decide_eq_false_2 (a = chr "-")) by by apply word_not_dash.
    by rewrite (bool_decide_eq_false_2 (x = chr "-")) by by apply word_not_dash.
  - apply head_snoc_ne; [|intros E; by destruct σ].
    apply head_snoc_ne; [done|]. intros ->. done.
  - intros [= E]. by apply word_not_dash in Hx.
  - intros _. by exists x.
Qed.

(** Appending more characters of the word. *)
Lemma shaped_words w : forall σ c e,
  shaped (Slug.Buffer σ c e) -> Forall (fun x => Slug.word x = true) w ->
  (c = false \/ w <> []) ->
  shaped (Slug.Buffer (σ ++ w) false e).
Proof.
  induction w as [|x w IH]; intros σ c e Hs Hw Hor.
  - destruct Hor as [->|?]; [|done]. by rewrite app_nil_r.
  - apply Forall_cons in Hw as [Hx Hw].
    change (σ ++ x :: w) with (σ ++ [x] ++ w). rewrite app_assoc.
    apply (IH _ false e); [|done|by left].
    by apply (shaped_word σ c e).
Qed.

Lemma shaped_flags σ c e e' :
  shaped (Slug.Buffer σ c e) -> shaped (Slug.Buffer σ c e').
Proof. done. Qed.

Lemma loop_shaped s : shaped (loop s).
Proof.
  induction s as [|x s IH] using rev_ind.
  - unfold Slug.shaped. simpl. repeat split; done.
  - rewrite loop_snoc. destruct (loop s) as [σ c e].
    unfold Slug.Slugify_step. simpl.
    destruct (alnum x) eqn:Ha.
    + pose proof (lower_word x Ha) as Hw.
      destruct e, c; simpl.
      * by apply (shaped_word σ true true).
      * by apply (shaped_dash_word σ true).
      * by apply (shaped_word σ true false).
      * by apply (shaped_word σ false false).
    + destruct (Slug.is_separator x) eqn:Hsep.
      * destruct IH as (Hadj & Hhead & Hlast & _). unfold Slug.shaped. simpl in *.
        assert (x <> chr "-") as Hx by (intros ->; done).
        rewrite adjacent_ok_snoc, Hadj, last_snoc. repeat split; try done.
        -- destruct (last σ) as [a|] eqn:E; [|done]. simpl.
           unfold Slug.pair_ok.
           rewrite (bool_decide_eq_false_2 (a = chr "-")) by congruence.
           by rewrite (bool_decide_eq_false_2 (x = chr "-")).
        -- by apply head_snoc_ne.
        -- congruence.
      * destruct (Slug.is_dash x); [exact IH|].
        destruct (Slug.runename x) as [name|] eqn:Hname; [|exact IH].
        apply runename_plain in Hname as [Hne Hpl].
        assert (Forall (fun x => Slug.word x = true) name) as Hw.
        { eapply Forall_impl; [exact Hpl|]. intros y. apply plain_word. }
        destruct name as [|y name]; [done|].
        apply Forall_cons in Hw as [Hy Hw].
        destruct c; simpl.
        -- change (σ ++ y :: name) with (σ ++ [y] ++ name). rewrite app_assoc.
           apply (shaped_words name _ false true); [|done|by left].
           by apply (shaped_word σ true e).
        -- change ((σ ++ [chr "-"]) ++ y :: name)
             with ((σ ++ [chr "-"]) ++ [y] ++ name).
           rewrite app_assoc.
           apply (shaped_words name _ false true); [|done|by left].
           by apply (shaped_dash_word σ e).
Qed.

(** X1. A slug is "-" or has no dash at either end and no dash next to
    another dash or to a separator. *)
Theorem Slugify_wellformed (s : gostring) :
  Slugify s = str "-" \/ Slug.wellformed (Slugify s) = true.
Proof.
  unfold Slug.Slugify. case_bool_decide as He; [by left|]. right.
  destruct (loop_shaped s) as (Hadj & Hhead & Hlast & _).
  unfold Slug.wellformed. rewrite Hadj.
  rewrite (bool_decide_eq_false_2 (head _ = _)) by done.
  by rewrite (bool_decide_eq_false_2 (last _ = _)) by done.
Qed.

(** *** Valid slugs *)

Lemma Slugify_Slugify s : Slugify (Slugify s) = Slugify s.
Proof.
  unfold Slug.Slugify at 2 3. case_bool_decide as He.
  - unfold Slug.Slugify, Slug.Slugify_loop. simpl. by rewrite step_dash.
  - unfold Slug.Slugify. rewrite loop_fixed. simpl.
    by rewrite bool_decide_eq_false_2.
Qed.

Lemma Slugify_not_nil s : Slugify s <> [].
Proof.
  unfold Slug.Slugify. case_bool_decide as He; [done|].
  intros E. apply He. by rewrite E.
Qed.

Lemma ValidateSlug_None s : ValidateSlug s = None <-> s <> [] /\ Slugify s = s.
Proof.
  unfold Slug.ValidateSlug. case_bool_decide as He.
  - split; [done|]. intros [Hne _]. apply length_zero_iff_nil in He. done.
  - case_bool_decide as Hc.
    + split; [done|]. intros [_ E]. exfalso. apply Hc. by rewrite E.
    + split; [|done]. intros _. split; [|by symmetry].
      intros ->. by apply He.
Qed.

(** X5. The slugs that [ValidateSlug] accepts are exactly the results of
    [Slugify]. *)
Theorem ValidateSlug_image (s : Slug.Slug) :
  ValidateSlug s = None <-> exists t, s = Slugify t.
Proof.
  rewrite ValidateSlug_None. split.
  - intros [_ E]. by exists s.
  - intros [t ->]. split; [apply Slugify_not_nil|apply Slugify_Slugify].
Qed.

(** X8. [NormalizeTags] keeps the number of tags, returns slugs that
    [ValidateSlug] accepts, and changes nothing when applied again. *)
Theorem NormalizeTags_normal (tags : list gostring) :
  length (Slug.NormalizeTags IsNumber IsLetter ToLower tags) = length tags
  /\ Forall (fun tag => ValidateSlug tag = None)
       (Slug.NormalizeTags IsNumber IsLetter ToLower tags)
  /\ Slug.NormalizeTags IsNumber IsLetter ToLower
       (Slug.NormalizeTags IsNumber IsLetter ToLower tags)
     = Slug.NormalizeTags IsNumber IsLetter ToLower tags.
Proof.
  unfold Slug.NormalizeTags. split; [apply length_fmap|]. split.
  - apply Forall_fmap, Forall_true. intros tag. simpl.
    apply ValidateSlug_None. split; [apply Slugify_not_nil|apply Slugify_Slugify].
  - rewrite <- list_fmap_compose. apply list_fmap_ext. intros _ tag _. simpl.
    apply Slugify_Slugify.
Qed.

(** *** Links *)

(** X6. [TokenizeLink3] slugifies the link without its leading "/".  If
    the page has a "=", the owner is what stands before the first one and
    the title what stands after it; otherwise the owner is empty and the
    title is the page.  [TokenizeLink] returns the same owner and page. *)
Theorem TokenizeLink3_parts (link : gostring) :
  let r := Slug.TokenizeLink3 IsNumber IsLetter ToLower link in
  let owner := r.1.1 in
  let title := r.1.2 in
  let page := r.2 in
  page = Slugify (if HasPrefix link (str "/") then drop 1 link else link)
  /\ Slug.TokenizeLink IsNumber IsLetter ToLower link = (owner, page)
  /\ (chr "=" ∉ owner)
  /\ ((chr "=" ∈ page /\ page = owner ++ chr "=" :: title)
      \/ ((chr "=" ∉ page) /\ owner = [] /\ title = page)).
Proof.
  unfold Slug.TokenizeLink3, Slug.TokenizeLink.
  set (slug := Slugify (if HasPrefix link (str "/") then drop 1 link else link)).
  destruct (Slug.Index slug (chr "=")) as [i|] eqn:E; simpl.
  - apply Index_Some in E as [Hs Hnot]. repeat split; [done|].
    left. split; [|done]. rewrite Hs. apply elem_of_app. right. left.
  - apply Index_None in E. repeat split; [apply not_elem_of_nil|].
    by right.
Qed.

(** X7. For a link [o ++ "=" ++ t] where [o] has no "=" and no leading
    "/", the owner is what the loop builds for [o], the title what it
    builds for [t], and the page is the two joined by "=". *)
Theorem TokenizeLink3_owner (o t : gostring) :
  chr "=" ∉ o -> HasPrefix o (str "/") = false ->
  Slug.TokenizeLink3 IsNumber IsLetter ToLower (o ++ chr "=" :: t) =
  (Slug.slug (loop o), Slug.slug (loop t),
   Slug.slug (loop o) ++ chr "=" :: Slug.slug (loop t)).
Proof.
  intros Ho Hslash.
  assert (HasPrefix (o ++ chr "=" :: t) (str "/") = false) as Hp.
  { destruct o as [|x o]; [done|]. simpl in *.
    destruct (bool_decide (chr "/" = x)); [|done].
    by destruct o. }
  assert (alnum (chr "=") = false) as Heq by by apply separator_not_alnum.
  assert (chr "=" ∉ Slug.slug (loop o)) as Hnot.
  { intros Hin. apply loop_alphabet in Hin
      as [?|[[_ ?]|[(r & _ & Hr & E)|?]]]; try done.
    apply lower_alnum in Hr. rewrite <- E in Hr. congruence. }
  unfold Slug.TokenizeLink3. rewrite Hp.
  rewrite (Slugify_separator_eq o t Heq).
  rewrite (Index_app _ _ _ Hnot).
  rewrite take_app_length.
  assert (drop (S (length (Slug.slug (loop o))))
            (Slug.slug (loop o) ++ chr "=" :: Slug.slug (loop t))
          = Slug.slug (loop t)) as ->; [|done].
  rewrite (cons_middle (chr "=")), app_assoc.
  apply drop_app_length'. rewrite length_app. simpl. lia.
Qed.

End SlugifyFacts.

(** *** The ASCII functions *)

Ltac chr_eval :=
  repeat match goal with
  | |- context [chr ?a] =>
      let v := eval vm_compute in (chr a) in change (chr a) with v
  | H : context [chr ?a] |- _ =>
      let v := eval vm_compute in (chr a) in change (chr a) with v in H
  end.

Ltac leb_cases :=
  repeat match goal with
  | |- context [?a <=? ?b] => destruct (Z.leb_spec a b)
  | H : context [?a <=? ?b] |- _ => destruct (Z.leb_spec a b)
  end; simpl in *; try done; try lia.

Lemma ascii_lower_alnum r :
  Slug.ascii_IsNumber r || Slug.ascii_IsLetter r = true ->
  Slug.ascii_IsNumber (Slug.ascii_ToLower r)
  || Slug.ascii_IsLetter (Slug.ascii_ToLower r) = true.
Proof.
  unfold Slug.ascii_IsNumber, Slug.ascii_IsLetter, Slug.ascii_ToLower.
  chr_eval. intros H. leb_cases.
Qed.

Lemma ascii_lower_lower r :
  Slug.ascii_IsNumber r || Slug.ascii_IsLetter r = true ->
  Slug.ascii_ToLower (Slug.ascii_ToLower r) = Slug.ascii_ToLower r.
Proof.
  unfold Slug.ascii_IsNumber, Slug.ascii_IsLetter, Slug.ascii_ToLower.
  chr_eval. intros H. leb_cases.
Qed.

Lemma ascii_plain_alnum c :
  Slug.plain c = true -> Slug.ascii_IsNumber c || Slug.ascii_IsLetter c = true.
Proof.
  unfold Slug.ascii_IsNumber, Slug.ascii_IsLetter, Slug.plain.
  chr_eval. intros H. leb_cases.
Qed.

Lemma ascii_plain_lower c : Slug.plain c = true -> Slug.ascii_ToLower c = c.
Proof.
  unfold Slug.ascii_ToLower, Slug.plain. chr_eval. intros H. leb_cases.
Qed.

Lemma ascii_dash_not_alnum :
  Slug.ascii_IsNumber (chr "-") || Slug.ascii_IsLetter (chr "-") = false.
Proof. reflexivity. Qed.

Lemma Slugify_never_empty_witness :
  Forall (fun r => Slug.unnamed Slug.ascii_IsNumber Slug.ascii_IsLetter r = true)
         (str " ._")
  /\ Slug.ascii_Slugify (str " ._") = str "-".
Proof.
  assert (Forall (fun r => Slug.unnamed Slug.ascii_IsNumber Slug.ascii_IsLetter r
                           = true) (str " ._")) as H
    by (repeat constructor).
  split; [exact H|].
  exact (proj2 (proj2 (Slugify_never_empty Slug.ascii_IsNumber Slug.ascii_IsLetter
                         Slug.ascii_ToLower (str " ._"))) H).
Defined.

Lemma ascii_separator_not_alnum r :
  Slug.is_separator r = true ->
  Slug.ascii_IsNumber r || Slug.ascii_IsLetter r = false.
Proof.
  unfold Slug.is_separator. intros H.
  apply orb_true_iff in H as [H|H]; apply bool_decide_eq_true in H; by subst.
Qed.

Lemma Slugify_separator_witness :
  Slug.ascii_Slugify (str "Help" ++ chr "/" :: str "About Us") = str "help/about-us".
Proof.
  exact (Slugify_separator Slug.ascii_IsNumber Slug.ascii_IsLetter
           Slug.ascii_ToLower (str "Help") (str "About Us") (chr "/")
           eq_refl eq_refl).
Defined.

Lemma Slugify_trim_witness :
  Slug.ascii_Slugify (str " _" ++ str "Hello, World" ++ str "...")
  = Slug.ascii_Slugify (str "Hello, World").
Proof.
  apply (Slugify_trim Slug.ascii_IsNumber Slug.ascii_IsLetter Slug.ascii_ToLower).
  - repeat constructor.
  - repeat constructor.
Defined.

Lemma Slugify_collapse_witness :
  Slug.ascii_Slugify (str "Hello" ++ str "  ,  " ++ str "World")
  = Slug.ascii_Slugify (str "Hello" ++ str "_" ++ str "World").
Proof.
  apply (Slugify_collapse Slug.ascii_IsNumber Slug.ascii_IsLetter
           Slug.ascii_ToLower).
  - vm_compute. discriminate.
  - vm_compute. discriminate.
  - repeat constructor.
  - repeat constructor.
Defined.

Lemma Slugify_alphabet_witness :
  chr "h" = chr "-"
  \/ (Slug.is_separator (chr "h") = true /\ chr "h" ∈ str "Hi")
  \/ (exists r, r ∈ str "Hi"
       /\ Slug.ascii_IsNumber r || Slug.ascii_IsLetter r = true
       /\ chr "h" = Slug.ascii_ToLower r)
  \/ Slug.plain (chr "h") = true.
Proof.
  apply (Slugify_alphabet Slug.ascii_IsNumber Slug.ascii_IsLetter
           Slug.ascii_ToLower (str "Hi") (chr "h")).
  vm_compute. left.
Defined.

Lemma Slugify_wellformed_witness :
  Slug.ascii_Slugify (str "a - b") = str "-"
  \/ Slug.wellformed (Slug.ascii_Slugify (str "a - b")) = true.
Proof.
  exact (Slugify_wellformed Slug.ascii_IsNumber Slug.ascii_IsLetter
           Slug.ascii_ToLower ascii_lower_alnum ascii_dash_not_alnum
           ascii_separator_not_alnum (str "a - b")).
Defined.

Lemma ValidateSlug_image_witness :
  Slug.ValidateSlug Slug.ascii_IsNumber Slug.ascii_IsLetter Slug.ascii_ToLower
    (str "hello-world") = None
  <-> exists t, str "hello-world" = Slug.ascii_Slugify t.
Proof.
  exact (ValidateSlug_image Slug.ascii_IsNumber Slug.ascii_IsLetter
           Slug.ascii_ToLower ascii_lower_alnum ascii_lower_lower
           ascii_plain_alnum ascii_plain_lower ascii_dash_not_alnum
           (str "hello-world")).
Defined.

Lemma NormalizeTags_normal_witness :
  Slug.NormalizeTags Slug.ascii_IsNumber Slug.ascii_IsLetter Slug.ascii_ToLower
    (Slug.NormalizeTags Slug.ascii_IsNumber Slug.ascii_IsLetter Slug.ascii_ToLower
       [str "How To"; str " FAQ "])
  = Slug.NormalizeTags Slug.ascii_IsNumber Slug.ascii_IsLetter Slug.ascii_ToLower
      [str "How To"; str " FAQ "].
Proof.
  exact (proj2 (proj2 (NormalizeTags_normal Slug.ascii_IsNumber
           Slug.ascii_IsLetter Slug.ascii_ToLower ascii_lower_alnum
           ascii_lower_lower ascii_plain_alnum ascii_plain_lower
           ascii_dash_not_alnum [str "How To"; str " FAQ "]))).
Defined.

Lemma TokenizeLink3_owner_witness :
  Slug.TokenizeLink3 Slug.ascii_IsNumber Slug.ascii_IsLetter Slug.ascii_ToLower
    (str "Help" ++ chr "=" :: str "About Us")
  = (str "help", str "about-us", str "help=about-us").
Proof.
  apply (TokenizeLink3_owner Slug.ascii_IsNumber Slug.ascii_IsLetter
           Slug.ascii_ToLower ascii_lower_alnum ascii_separator_not_alnum
           (str "Help") (str "About Us")).
  - apply (bool_decide_unpack _). vm_compute. exact I.
  - vm_compute. reflexivity.
Defined.

Lemma Slugify_idempotent_witness :
  Slug.ascii_Slugify (Slug.ascii_Slugify (str "Hello  World  /  Test"))
  = Slug.ascii_Slugify (str "Hello  World  /  Test")
  /\ Slug.ValidateSlug Slug.ascii_IsNumber Slug.ascii_IsLetter Slug.ascii_ToLower
       (Slug.ascii_Slugify (str "Hello  World  /  Test")) = None.
Proof.
  exact (Slugify_idempotent Slug.ascii_IsNumber Slug.ascii_IsLetter
           Slug.ascii_ToLower ascii_lower_alnum ascii_lower_lower
           ascii_plain_alnum ascii_plain_lower ascii_dash_not_alnum
           (str "Hello  World  /  Test")).
Defined.

(* ================================================================== *)
(** ** Facts about the mapping *)

Import Ditaconv.

Lemma Bijection_empty : Bijection ∅ ∅.
Proof. intros slug topic. by rewrite !lookup_empty. Qed.

(** Registering a free identifier for a topic that has none. *)
Lemma Bijection_insert bs bt slug topic :
  Bijection bs bt -> bs !! slug = None -> bt !! topic = None ->
  Bijection (<[slug := topic]> bs) (<[topic := slug]> bt).
Proof.
  intros H Hs Ht s t.
  destruct (decide (slug = s)) as [->|Hns], (decide (topic = t)) as [->|Hnt];
    rewrite ?lookup_insert_eq, ?lookup_insert_ne by done.
  - done.
  - split; [congruence|]. intros Hbt. apply H in Hbt. congruence.
  - split; [|congruence]. intros Hbs. apply H in Hbs. congruence.
  - apply H.
Qed.

(** Moving a topic from its identifier to a free one. *)
Lemma Bijection_move bs bt prev slug topic :
  Bijection bs bt -> bs !! prev = Some topic -> bs !! slug = None ->
  Bijection (<[slug := topic]> (delete prev bs)) (<[topic := slug]> bt).
Proof.
  intros H Hprev Hs s t.
  assert (bt !! topic = Some prev) as Hbt by by apply H.
  destruct (decide (slug = s)) as [->|Hns], (decide (topic = t)) as [->|Hnt];
    rewrite ?lookup_insert_eq, ?lookup_insert_ne by done.
  - done.
  - split; [congruence|]. intros Ht. apply H in Ht. congruence.
  - split; [|congruence]. intros Hd.
    apply lookup_delete_Some in Hd as [Hne Hd]. apply H in Hd. congruence.
  - destruct (decide (prev = s)) as [->|Hnp].
    + rewrite lookup_delete_eq. split; [done|].
      intros Ht. apply H in Ht. congruence.
    + rewrite lookup_delete_ne by done. apply H.
Qed.

Lemma Bijection_slug_unique bs bt s1 s2 topic :
  Bijection bs bt -> bs !! s1 = Some topic -> bs !! s2 = Some topic -> s1 = s2.
Proof. intros H H1 H2. apply H in H1, H2. congruence. Qed.

Lemma Bijection_topic_unique bs bt t1 t2 slug :
  Bijection bs bt -> bt !! t1 = Some slug -> bt !! t2 = Some slug -> t1 = t2.
Proof. intros H H1 H2. apply H in H1, H2. congruence. Qed.

(** *** [titelize] *)

Import Regexp.

(** An expression with a character that the text does not have matches
    nowhere at the start of the text. *)
Lemma match_here_absent c re : forall s,
  Lit c ∈ re -> c ∉ s -> match_here re s = None.
Proof.
  induction re as [|it re IH]; intros s Hin Hs.
  - by apply elem_of_nil in Hin.
  - apply elem_of_cons in Hin as [<-|Hin].
    + simpl. destruct s as [|x s]; [done|].
      apply not_elem_of_cons in Hs as [Hx _].
      by rewrite bool_decide_eq_false_2 by congruence.
    + destruct it as [c'|c'|c']; simpl.
      * destruct s as [|x s]; [done|]. case_bool_decide; [|done].
        apply not_elem_of_cons in Hs as [_ Hs]. by rewrite (IH s).
      * destruct s as [|x s]; [by apply IH|].
        assert (c ∉ s) as Hs' by (apply not_elem_of_cons in Hs; tauto).
        case_bool_decide; rewrite ?(IH s) by done; by apply IH.
      * destruct s as [|x s]; [done|]. case_bool_decide; [|done].
        apply not_elem_of_cons in Hs as [_ Hs]. by rewrite (IH s).
Qed.

Lemma replace_absent c re repl : forall s,
  Lit c ∈ re -> c ∉ s -> replace re repl s 0%nat = s.
Proof.
  induction s as [|x s IH]; intros Hin Hs; [done|].
  simpl. rewrite (match_here_absent c re (x :: s)) by done.
  apply not_elem_of_cons in Hs as [_ Hs]. by rewrite IH.
Qed.

(** What [replace] returns is made of the replacement and of the text. *)
Lemma replace_elem_of re repl c : forall s skip,
  c ∈ replace re repl s skip -> c ∈ repl \/ c ∈ s.
Proof.
  induction s as [|x s IH]; intros skip; simpl.
  - intros H. by apply elem_of_nil in H.
  - destruct skip as [|k].
    + destruct (match_here re (x :: s)) as [[|k]|].
      * intros [->|H]%elem_of_cons; [right; left|].
        destruct (IH _ H); [by left|right; by right].
      * intros [H|H]%elem_of_app; [by left|].
        destruct (IH _ H); [by left|right; by right].
      * intros [->|H]%elem_of_cons; [right; left|].
        destruct (IH _ H); [by left|right; by right].
    + intros H. destruct (IH _ H); [by left|right; by right].
Qed.

Lemma match_here_rxOr_slash s : exists n, match_here rxOr (chr "/" :: s) = Some (S n).
Proof.
  unfold rxOr. simpl. destruct s as [|x s]; simpl; [by eexists|].
  case_bool_decide; simpl; by eexists.
Qed.

Lemma replace_cons re repl x s :
  replace re repl (x :: s) 0%nat =
  match match_here re (x :: s) with
  | Some (S k) => repl ++ replace re repl s k
  | _ => x :: replace re repl s 0%nat
  end.
Proof. reflexivity. Qed.

Lemma replace_rxOr_no_slash : forall s skip,
  chr "/" ∉ replace rxOr (str " or ") s skip.
Proof.
  induction s as [|x s IH]; intros skip; [apply not_elem_of_nil|].
  destruct skip as [|k]; [|apply IH].
  rewrite replace_cons.
  destruct (match_here rxOr (x :: s)) as [[|k]|] eqn:E.
  - apply not_elem_of_cons. split; [|apply IH]. intros <-.
    destruct (match_here_rxOr_slash s) as [n Hn]. congruence.
  - intros [H|H]%elem_of_app; [|by apply IH in H].
    vm_compute in H. by repeat (apply elem_of_cons in H as [H|H]; [done|]);
      apply elem_of_nil in H.
  - apply not_elem_of_cons. split; [|apply IH]. intros <-.
    destruct (match_here_rxOr_slash s) as [n Hn]. congruence.
Qed.

(** X9. No title that [titelize] returns has a "/". *)
Theorem titelize_no_slash (title : gostring) : chr "/" ∉ titelize title.
Proof.
  unfold titelize, ReplaceAllString. intros H.
  apply replace_elem_of in H as [H|H].
  - vm_compute in H. by repeat (apply elem_of_cons in H as [H|H]; [done|]);
      apply elem_of_nil in H.
  - by apply replace_rxOr_no_slash in H.
Qed.

(** X10. [titelize] returns a title without "/" and "&" as it is. *)
Theorem titelize_plain (title : gostring) :
  chr "/" ∉ title -> chr "&" ∉ title -> titelize title = title.
Proof.
  intros Hs Ha. unfold titelize, ReplaceAllString.
  rewrite (replace_absent (chr "/") rxOr) by (done || set_solver).
  by rewrite (replace_absent (chr "&") rxAnd) by (done || set_solver).
Qed.

Lemma titelize_plain_witness : titelize (str "Overview") = str "Overview".
Proof.
  apply titelize_plain; apply (bool_decide_unpack _); vm_compute; exact I.
Defined.

Section MappingFacts.

Variable Slugify : gostring -> Slug.Slug.

Local Abbreviation assign := (Ditaconv.assign Slugify).
Local Abbreviation promote := (Ditaconv.promote Slugify).
Local Abbreviation assign_all := (Ditaconv.assign_all Slugify).
Local Abbreviation promote_all := (Ditaconv.promote_all Slugify).
Local Abbreviation CreateMapping := (Ditaconv.CreateMapping Slugify).

(** *** The first loop *)

Ltac assign_cases st topic :=
  unfold Ditaconv.assign; simpl;
  destruct (byslug st !! Slugify (titelize (Title (heap st topic))));
  [|case_bool_decide]; simpl.

Lemma assign_Inv st topic :
  Inv st -> bytopic st !! topic = None -> Inv (assign st topic).
Proof.
  unfold Inv. intros H Ht. unfold Ditaconv.assign. simpl.
  destruct (byslug st !! Slugify (titelize (Title (heap st topic)))) eqn:E;
    [done|]. case_bool_decide; [done|]. simpl. by apply Bijection_insert.
Qed.

Lemma assign_bytopic_other st topic t :
  t <> topic -> bytopic (assign st topic) !! t = bytopic st !! t.
Proof.
  intros Hne. assign_cases st topic; try done. by rewrite lookup_insert_ne.
Qed.

Lemma assign_byslug_keeps st topic slug other :
  byslug st !! slug = Some other -> byslug (assign st topic) !! slug = Some other.
Proof.
  intros Hs. unfold Ditaconv.assign. simpl.
  destruct (byslug st !! Slugify (titelize (Title (heap st topic)))) eqn:E;
    [done|]. case_bool_decide; [done|]. simpl.
  rewrite lookup_insert_ne; [done|]. congruence.
Qed.

Lemma assign_heap_other st topic t :
  t <> topic -> heap (assign st topic) t = heap st t.
Proof.
  intros Hne. assign_cases st topic; by rewrite fn_lookup_insert_ne.
Qed.

Lemma assign_Filename st topic t :
  Filename (heap (assign st topic) t) = Filename (heap st t).
Proof.
  destruct (decide (t = topic)) as [->|Hne].
  - assign_cases st topic; by rewrite fn_lookup_insert.
  - by rewrite assign_heap_other.
Qed.

Lemma assign_errors st topic :
  exists more, errors (assign st topic) = errors st ++ more.
Proof.
  assign_cases st topic; eauto. exists []. by rewrite app_nil_r.
Qed.

Lemma assign_all_cons topic topics st :
  fold_left assign (topic :: topics) st = fold_left assign topics (assign st topic).
Proof. reflexivity. Qed.

Lemma fold_assign_Inv topics : forall st,
  NoDup topics -> Inv st -> (forall t, t ∈ topics -> bytopic st !! t = None) ->
  Inv (fold_left assign topics st).
Proof.
  induction topics as [|a topics IH]; intros st Hnd HI Hfresh; [done|].
  apply NoDup_cons in Hnd as [Ha Hnd]. simpl. apply IH; [done| |].
  - apply assign_Inv; [done|]. apply Hfresh. left.
  - intros t Ht. rewrite assign_bytopic_other.
    + apply Hfresh. by right.
    + intros ->. done.
Qed.

Lemma fold_assign_bytopic_other topics : forall st t,
  t ∉ topics -> bytopic (fold_left assign topics st) !! t = bytopic st !! t.
Proof.
  induction topics as [|a topics IH]; intros st t Ht; [done|].
  apply not_elem_of_cons in Ht as [Hne Ht]. simpl.
  rewrite IH by done. by apply assign_bytopic_other.
Qed.

Lemma fold_assign_byslug_keeps topics : forall st slug other,
  byslug st !! slug = Some other ->
  byslug (fold_left assign topics st) !! slug = Some other.
Proof.
  induction topics as [|a topics IH]; intros st slug other H; [done|].
  simpl. apply IH. by apply assign_byslug_keeps.
Qed.

Lemma fold_assign_heap_other topics : forall st t,
  t ∉ topics -> heap (fold_left assign topics st) t = heap st t.
Proof.
  induction topics as [|a topics IH]; intros st t Ht; [done|].
  apply not_elem_of_cons in Ht as [Hne Ht]. simpl.
  rewrite IH by done. by apply assign_heap_other.
Qed.

Lemma fold_assign_Filename topics : forall st t,
  Filename (heap (fold_left assign topics st) t) = Filename (heap st t).
Proof.
  induction topics as [|a topics IH]; intros st t; [done|].
  simpl. rewrite IH. apply assign_Filename.
Qed.

Lemma fold_assign_errors topics : forall st,
  exists more, errors (fold_left assign topics st) = errors st ++ more.
Proof.
  induction topics as [|a topics IH]; intros st.
  - exists []. by rewrite app_nil_r.
  - simpl. destruct (IH (assign st a)) as [m1 H1].
    destruct (assign_errors st a) as [m2 H2].
    exists (m2 ++ m1). by rewrite H1, H2, app_assoc.
Qed.

Lemma assign_all_Inv topics h : NoDup topics -> Inv (assign_all topics h).
Proof.
  intros Hnd. apply fold_assign_Inv; [done|apply Bijection_empty|].
  intros t _. apply lookup_empty.
Qed.

Lemma assign_byslug_None st topic slug :
  Slugify (titelize (Title (heap st topic))) <> slug ->
  byslug st !! slug = None -> byslug (assign st topic) !! slug = None.
Proof.
  intros Hne Hs. assign_cases st topic; try done. by rewrite lookup_insert_ne.
Qed.

Lemma fold_assign_byslug_None slug topics : forall st,
  NoDup topics ->
  (forall x, x ∈ topics -> Slugify (titelize (Title (heap st x))) <> slug) ->
  byslug st !! slug = None ->
  byslug (fold_left assign topics st) !! slug = None.
Proof.
  induction topics as [|a topics IH]; intros st Hnd Hall Hs; [done|].
  apply NoDup_cons in Hnd as [Ha Hnd]. simpl. apply IH; [done| |].
  - intros x Hx. rewrite assign_heap_other.
    + apply Hall. by right.
    + intros ->. done.
  - apply assign_byslug_None; [|done]. apply Hall. left.
Qed.

(** What the first loop does with a topic whose identifier is taken. *)
Lemma assign_clash st topic other :
  byslug st !! Slugify (titelize (Title (heap st topic))) = Some other ->
  other <> topic ->
  byslug (assign st topic) = byslug st
  /\ bytopic (assign st topic) = bytopic st
  /\ errors (assign st topic) =
     errors st ++ [ClashingTitle (titelize (Title (heap st topic)))
                     (Filename (heap st topic)) (Filename (heap st other))].
Proof.
  intros Hs Hne. unfold Ditaconv.assign. simpl. rewrite Hs. simpl.
  by rewrite fn_lookup_insert_ne.
Qed.

(** *** The second loop *)

Ltac promote_cases st prev :=
  unfold Ditaconv.promote;
  let topic := fresh "topic" in
  let E := fresh "Eprev" in
  destruct (byslug st !! prev) as [topic|] eqn:E; [|try done];
  let C := fresh "Hcond" in
  destruct (bool_decide (ShortTitle (heap st topic) = [])
            || (len (Title (heap st topic)) <=? len (ShortTitle (heap st topic))))
    eqn:C; [try done|];
  let F := fresh "Efree" in
  destruct (byslug st !! Slugify (ShortTitle (heap st topic))) eqn:F;
  [try done|]; simpl.

Lemma promote_Inv st prev : Inv st -> Inv (promote st prev).
Proof.
  unfold Inv. intros H. promote_cases st prev. by apply Bijection_move.
Qed.

Lemma promote_errors st prev : errors (promote st prev) = errors st.
Proof. promote_cases st prev. done. Qed.

Lemma promote_is_Some st prev t :
  is_Some (bytopic st !! t) -> is_Some (bytopic (promote st prev) !! t).
Proof.
  intros H. promote_cases st prev.
  destruct (decide (topic = t)) as [->|Hne].
  - rewrite lookup_insert_eq. eauto.
  - by rewrite lookup_insert_ne.
Qed.

Lemma promote_None st prev t :
  Inv st -> bytopic st !! t = None -> bytopic (promote st prev) !! t = None.
Proof.
  intros HI H. promote_cases st prev.
  rewrite lookup_insert_ne; [done|]. intros ->.
  apply HI in Eprev. congruence.
Qed.

(** A topic is left alone by the visit of a key other than its own, and
    by any visit once its short title is empty. *)
Lemma promote_frame st prev t slug :
  Inv st -> bytopic st !! t = Some slug ->
  ShortTitle (heap st t) = [] \/ prev <> slug ->
  bytopic (promote st prev) !! t = Some slug /\ heap (promote st prev) t = heap st t.
Proof.
  intros HI Ht Hor. promote_cases st prev.
  assert (topic <> t) as Hne.
  { intros ->. apply HI in Eprev. destruct Hor as [Hshort|Hk]; [|congruence].
    rewrite Hshort in Hcond. by rewrite bool_decide_eq_true_2 in Hcond. }
  rewrite lookup_insert_ne by done. by rewrite fn_lookup_insert_ne.
Qed.

Lemma fold_promote_Inv keys : forall st, Inv st -> Inv (fold_left promote keys st).
Proof.
  induction keys as [|k keys IH]; intros st H; [done|].
  simpl. apply IH. by apply promote_Inv.
Qed.

Lemma fold_promote_errors keys : forall st,
  errors (fold_left promote keys st) = errors st.
Proof.
  induction keys as [|k keys IH]; intros st; [done|].
  simpl. rewrite IH. apply promote_errors.
Qed.

Lemma fold_promote_is_Some keys : forall st t,
  is_Some (bytopic st !! t) -> is_Some (bytopic (fold_left promote keys st) !! t).
Proof.
  induction keys as [|k keys IH]; intros st t H; [done|].
  simpl. apply IH. by apply promote_is_Some.
Qed.

Lemma fold_promote_None keys : forall st t,
  Inv st -> bytopic st !! t = None ->
  bytopic (fold_left promote keys st) !! t = None.
Proof.
  induction keys as [|k keys IH]; intros st t HI H; [done|].
  simpl. apply IH; [by apply promote_Inv|by apply promote_None].
Qed.

Lemma fold_promote_frame keys : forall st t slug,
  Inv st -> bytopic st !! t = Some slug ->
  ShortTitle (heap st t) = [] \/ slug ∉ keys ->
  bytopic (fold_left promote keys st) !! t = Some slug
  /\ heap (fold_left promote keys st) t = heap st t.
Proof.
  induction keys as [|k keys IH]; intros st t slug HI Ht Hor; [done|].
  simpl.
  destruct (promote_frame st k t slug HI Ht) as [Hb Hh].
  { destruct Hor as [Hs|Hk]; [by left|]. right. intros ->. apply Hk. left. }
  destruct (IH (promote st k) t slug) as [Hb' Hh']; [by apply promote_Inv|done| |].
  - rewrite Hh. destruct Hor as [Hs|Hk]; [by left|]. right.
    intros Hin. apply Hk. by right.
  - split; [done|]. by rewrite Hh'.
Qed.

(** C1. When the index holds each topic once, [BySlug] and [ByTopic] are
    each other's inverse, no topic has two identifiers and no identifier
    has two topics, both after the first loop and in the mapping that
    [CreateMapping] returns. *)
Theorem CreateMapping_bijection
    (topics : list ptr) (keys : list Slug.Slug) (h : store) :
  NoDup topics ->
  let st1 := assign_all topics h in
  let m := (CreateMapping topics keys h).1 in
  ((forall slug topic,
      byslug st1 !! slug = Some topic -> bytopic st1 !! topic = Some slug)
   /\ (forall topic slug,
        bytopic st1 !! topic = Some slug -> byslug st1 !! slug = Some topic)
   /\ (forall s1 s2 topic,
        byslug st1 !! s1 = Some topic -> byslug st1 !! s2 = Some topic -> s1 = s2)
   /\ (forall t1 t2 slug,
        bytopic st1 !! t1 = Some slug -> bytopic st1 !! t2 = Some slug -> t1 = t2))
  /\
  ((forall slug topic,
      BySlug m !! slug = Some topic -> ByTopic m !! topic = Some slug)
   /\ (forall topic slug,
        ByTopic m !! topic = Some slug -> BySlug m !! slug = Some topic)
   /\ (forall s1 s2 topic,
        BySlug m !! s1 = Some topic -> BySlug m !! s2 = Some topic -> s1 = s2)
   /\ (forall t1 t2 slug,
        ByTopic m !! t1 = Some slug -> ByTopic m !! t2 = Some slug -> t1 = t2)).
Proof.
  intros Hnd st1 m.
  pose proof (assign_all_Inv topics h Hnd) as H1.
  pose proof (fold_promote_Inv keys _ H1) as H2.
  split.
  - repeat split.
    + intros slug topic. apply H1.
    + intros topic slug. apply H1.
    + intros s1 s2 topic. by apply Bijection_slug_unique with (bytopic st1).
    + intros t1 t2 slug. by apply Bijection_topic_unique with (byslug st1).
  - repeat split.
    + intros slug topic. apply H2.
    + intros topic slug. apply H2.
    + intros s1 s2 topic. by apply Bijection_slug_unique with (ByTopic m).
    + intros t1 t2 slug. by apply Bijection_topic_unique with (BySlug m).
Qed.

(** *** Promotion *)

Lemma promote_all_app pre prev post st :
  promote_all (pre ++ prev :: post) st =
  promote_all post (promote (promote_all pre st) prev).
Proof. unfold Ditaconv.promote_all. by rewrite fold_left_app. Qed.

(** C3. Take a topic that the first loop registered under [prev], with a
    non-empty short title shorter than its title, and let the second loop
    produce [prev] after the keys [pre] (for the first time) and before
    the keys [post].  If the identifier of the short title is free at
    that moment, the returned mapping has the topic under that identifier,
    its title is the former short title, its short title is empty and the
    entry under [prev] is removed and no longer leads to the topic.  If
    the identifier is taken, and [prev] is not produced again, the topic
    keeps its identifier and its titles.  The second loop records no
    error. *)
Theorem short_title_promotion
    (topics : list ptr) (pre : list Slug.Slug) (prev : Slug.Slug)
    (post : list Slug.Slug) (h : store) (topic : ptr) :
  NoDup topics ->
  let st1 := assign_all topics h in
  let st := promote_all pre st1 in
  let r := CreateMapping topics (pre ++ prev :: post) h in
  let short := ShortTitle (heap st1 topic) in
  byslug st1 !! prev = Some topic ->
  prev ∉ pre ->
  short <> [] ->
  len short < len (Title (heap st1 topic)) ->
  (byslug st !! Slugify short = None ->
     ByTopic r.1 !! topic = Some (Slugify short)
     /\ BySlug r.1 !! Slugify short = Some topic
     /\ Title (Topics r.1 topic) = short
     /\ ShortTitle (Topics r.1 topic) = []
     /\ byslug (promote st prev) !! prev = None
     /\ BySlug r.1 !! prev <> Some topic)
  /\ (byslug st !! Slugify short <> None -> prev ∉ post ->
      ByTopic r.1 !! topic = Some prev
      /\ BySlug r.1 !! prev = Some topic
      /\ Topics r.1 topic = heap st1 topic)
  /\ r.2 = errors st1.
Proof.
  intros Hnd st1 st r short Hreg Hpre Hne Hlen.
  assert (Inv st1) as H1 by by apply assign_all_Inv.
  assert (Inv st) as HI by by apply fold_promote_Inv.
  assert (bytopic st1 !! topic = Some prev) as Hbt1 by by apply H1.
  assert (bytopic st !! topic = Some prev /\ heap st topic = heap st1 topic)
    as [Hbt Hheap] by (apply fold_promote_frame; [done|done|by right]).
  assert (byslug st !! prev = Some topic) as Hbs by by apply HI.
  assert (bool_decide (ShortTitle (heap st topic) = [])
          || (len (Title (heap st topic)) <=? len (ShortTitle (heap st topic)))
          = false) as Hcond.
  { rewrite Hheap. rewrite bool_decide_eq_false_2 by done.
    simpl. apply Z.leb_gt. exact Hlen. }
  set (st2 := promote st prev).
  set (st3 := promote_all post st2).
  assert (Inv st2) as HI2 by by apply promote_Inv.
  assert (Inv st3) as HI3 by by apply fold_promote_Inv.
  assert (r = (mkMapping (heap st3) (byslug st3) (bytopic st3), errors st3))
    as ->.
  { unfold r, Ditaconv.CreateMapping. by rewrite promote_all_app. }
  simpl. split; [|split].
  - intros Hfree.
    assert (Slugify short <> prev) as Hsp by congruence.
    assert (bytopic st2 !! topic = Some (Slugify short)
            /\ heap st2 topic = mkTopic (Filename (heap st topic)) short []
            /\ byslug st2 !! prev = None) as (Hbt2 & Hh2 & Hgone).
    { unfold st2, Ditaconv.promote. rewrite Hbs, Hcond, Hheap.
      fold short. rewrite Hfree. simpl.
      rewrite lookup_insert_eq, fn_lookup_insert.
      rewrite lookup_insert_ne by done. by rewrite lookup_delete_eq. }
    assert (bytopic st3 !! topic = Some (Slugify short)
            /\ heap st3 topic = heap st2 topic) as [Hbtr Hhr].
    { apply fold_promote_frame; [done|done|]. left. by rewrite Hh2. }
    repeat split.
    + exact Hbtr.
    + by apply HI3.
    + by rewrite Hhr, Hh2.
    + by rewrite Hhr, Hh2.
    + exact Hgone.
    + intros Hback. apply HI3 in Hback. congruence.
  - intros Htaken Hpost.
    assert (st2 = st) as Hsame.
    { unfold st2, Ditaconv.promote. rewrite Hbs, Hcond, Hheap. fold short.
      by destruct (byslug st !! Slugify short). }
    assert (bytopic st3 !! topic = Some prev /\ heap st3 topic = heap st2 topic)
      as [Hbtr Hhr].
    { apply fold_promote_frame; [done|by rewrite Hsame|by right]. }
    repeat split.
    + exact Hbtr.
    + by apply HI3.
    + by rewrite Hhr, Hsame.
  - unfold st3, st2, st, Ditaconv.promote_all.
    by rewrite fold_promote_errors, promote_errors, fold_promote_errors.
Qed.

(** *** Clashes *)

(** C4. Let [a] be the first topic that the first loop visits whose
    title, normalized and not empty, gives a certain identifier, and [b] a
    topic visited later whose normalized title gives the same identifier.
    The first loop registers [a] under the identifier and leaves [b] out;
    when it reaches [b] it only appends the error "clashing title" with
    the title and file of [b] and the file of [a], and goes on with the
    topics after [b].  The error is in the returned list; the returned
    mapping has [b] neither in [BySlug] nor in [ByTopic], and has [a]
    under one identifier. *)
Theorem clashing_title_excluded
    (l1 l2 l3 : list ptr) (a b : ptr) (keys : list Slug.Slug) (h : store) :
  let topics := l1 ++ a :: l2 ++ b :: l3 in
  let ta := titelize (Title (h a)) in
  let tb := titelize (Title (h b)) in
  let st := assign_all (l1 ++ a :: l2) h in
  let st1 := assign_all topics h in
  let r := CreateMapping topics keys h in
  let e := ClashingTitle tb (Filename (h b)) (Filename (h a)) in
  NoDup topics ->
  ta <> [] ->
  Slugify tb = Slugify ta ->
  (forall x, x ∈ l1 -> Slugify (titelize (Title (h x))) <> Slugify ta) ->
  (byslug st1 !! Slugify ta = Some a /\ bytopic st1 !! a = Some (Slugify ta)
   /\ bytopic st1 !! b = None)
  /\ (errors (assign st b) = errors st ++ [e]
      /\ byslug (assign st b) = byslug st
      /\ bytopic (assign st b) = bytopic st
      /\ st1 = fold_left assign l3 (assign st b))
  /\ (e ∈ r.2
      /\ ByTopic r.1 !! b = None
      /\ (forall slug, BySlug r.1 !! slug <> Some b)
      /\ exists slug, ByTopic r.1 !! a = Some slug /\ BySlug r.1 !! slug = Some a).
Proof.
  intros topics ta tb st st1 r e Hnd Hta Hsame Hfirst.
  assert (Inv st1) as HI1 by by apply assign_all_Inv.
  assert (Inv (promote_all keys st1)) as HIr by by apply fold_promote_Inv.
  unfold topics in Hnd.
  apply NoDup_app in Hnd as (Hnd1 & Hdisj & Hnd2).
  apply NoDup_cons in Hnd2 as [Ha2 Hnd2].
  apply NoDup_app in Hnd2 as (_ & Hdisj2 & Hnd3).
  apply NoDup_cons in Hnd3 as [Hb3 _].
  assert (a ∉ l1) as Ha1. { intros Hin. apply (Hdisj a Hin). left. }
  assert (a <> b) as Hab. { intros ->. apply Ha2. set_solver. }
  assert (b ∉ l1 ++ a :: l2) as Hb12.
  { intros [Hin|Hin]%elem_of_app.
    - apply (Hdisj b Hin). set_solver.
    - apply elem_of_cons in Hin as [->|Hin]; [done|].
      apply (Hdisj2 b Hin). left. }
  set (init := mkState h ∅ ∅ []).
  set (st0 := fold_left assign l1 init).
  assert (byslug st0 !! Slugify ta = None) as Hfree.
  { apply fold_assign_byslug_None; [done|exact Hfirst|apply lookup_empty]. }
  assert (heap st0 a = h a) as Hha by by apply fold_assign_heap_other.
  assert (byslug (assign st0 a) !! Slugify ta = Some a) as Hrega.
  { unfold Ditaconv.assign. simpl. rewrite Hha. fold ta. rewrite Hfree.
    rewrite bool_decide_eq_false_2 by done. simpl. apply lookup_insert_eq. }
  assert (st = fold_left assign l2 (assign st0 a)) as Hst.
  { unfold st, Ditaconv.assign_all. by rewrite fold_left_app. }
  assert (byslug st !! Slugify ta = Some a) as Hsta.
  { rewrite Hst. by apply fold_assign_byslug_keeps. }
  assert (heap st b = h b) as Hhb by by apply fold_assign_heap_other.
  assert (st1 = fold_left assign l3 (assign st b)) as Hst1.
  { unfold st1, st, Ditaconv.assign_all, topics.
    assert (l1 ++ a :: l2 ++ b :: l3 = (l1 ++ a :: l2) ++ b :: l3) as ->
      by by rewrite <- app_assoc.
    by rewrite fold_left_app. }
  assert (byslug st !! Slugify (titelize (Title (heap st b))) = Some a) as Hclash.
  { rewrite Hhb. fold tb. by rewrite Hsame. }
  destruct (assign_clash st b a Hclash Hab) as (Hbs & Hbt & Herr).
  rewrite Hhb in Herr. fold tb in Herr.
  assert (Filename (heap st a) = Filename (h a)) as Hfile
    by apply fold_assign_Filename.
  rewrite Hfile in Herr. fold e in Herr.
  assert (bytopic st1 !! b = None) as Hb1.
  { rewrite Hst1, fold_assign_bytopic_other by done. rewrite Hbt.
    unfold st, Ditaconv.assign_all.
    rewrite fold_assign_bytopic_other by done. apply lookup_empty. }
  assert (byslug st1 !! Slugify ta = Some a) as Ha1s.
  { rewrite Hst1. apply fold_assign_byslug_keeps. by rewrite Hbs. }
  assert (bytopic st1 !! a = Some (Slugify ta)) as Ha1t by by apply HI1.
  assert (ByTopic r.1 !! b = None) as Hbr by by apply fold_promote_None.
  split; [by repeat split|]. split; [by repeat split|]. repeat split.
  - unfold r, Ditaconv.CreateMapping, Ditaconv.promote_all. simpl.
    rewrite fold_promote_errors. fold st1. rewrite Hst1.
    destruct (fold_assign_errors l3 (assign st b)) as [more ->].
    rewrite Herr. set_solver.
  - exact Hbr.
  - intros slug Hs. apply HIr in Hs. unfold r in Hbr. simpl in Hbr.
    fold st1 in Hbr. congruence.
  - destruct (fold_promote_is_Some keys st1 a) as [slug Hslug]; [by eexists|].
    exists slug. split; [exact Hslug|]. by apply HIr.
Qed.

(** *** Missing titles *)

(** A topic whose normalized title is empty is in neither map of the
    returned mapping, and an error with its file is returned: a missing
    title, or a clash of the title "" when the identifier of the empty
    title is already registered. *)
Lemma untitled_topic_excluded
    (l1 l3 : list ptr) (b : ptr) (keys : list Slug.Slug) (h : store) :
  let r := CreateMapping (l1 ++ b :: l3) keys h in
  NoDup (l1 ++ b :: l3) ->
  titelize (Title (h b)) = [] ->
  ByTopic r.1 !! b = None
  /\ (forall slug, BySlug r.1 !! slug <> Some b)
  /\ (TitleMissing (Filename (h b)) ∈ r.2
      \/ exists other, ClashingTitle [] (Filename (h b)) other ∈ r.2).
Proof.
  intros r Hnd Hempty.
  set (st := assign_all l1 h).
  set (st1 := assign_all (l1 ++ b :: l3) h).
  assert (Inv st1) as HI1 by by apply assign_all_Inv.
  assert (Inv (promote_all keys st1)) as HIr by by apply fold_promote_Inv.
  apply NoDup_app in Hnd as (_ & Hdisj & Hnd2).
  apply NoDup_cons in Hnd2 as [Hb3 _].
  assert (b ∉ l1) as Hb1. { intros Hin. apply (Hdisj b Hin). left. }
  assert (heap st b = h b) as Hhb by by apply fold_assign_heap_other.
  assert (st1 = fold_left assign l3 (assign st b)) as Hst1.
  { unfold st1, st, Ditaconv.assign_all. by rewrite fold_left_app. }
  assert (bytopic st !! b = None) as Hfresh.
  { unfold st, Ditaconv.assign_all.
    rewrite fold_assign_bytopic_other by done. apply lookup_empty. }
  assert (bytopic (assign st b) = bytopic st
          /\ exists e, errors (assign st b) = errors st ++ [e]
               /\ (e = TitleMissing (Filename (h b))
                   \/ exists other, e = ClashingTitle [] (Filename (h b)) other))
    as (Hbt & e & Herr & He).
  { unfold Ditaconv.assign. simpl. rewrite Hhb, Hempty.
    destruct (byslug st !! Slugify []) as [other|]; simpl.
    - split; [done|]. eexists. split; [done|]. right. by eexists.
    - split; [done|]. eexists. split; [done|]. by left. }
  assert (ByTopic r.1 !! b = None) as Hbr.
  { apply fold_promote_None; [done|]. fold st1.
    rewrite Hst1, fold_assign_bytopic_other by done. by rewrite Hbt. }
  assert (e ∈ r.2) as Hin.
  { unfold r, Ditaconv.CreateMapping, Ditaconv.promote_all. simpl.
    rewrite fold_promote_errors. fold st1. rewrite Hst1.
    destruct (fold_assign_errors l3 (assign st b)) as [more ->].
    rewrite Herr. apply elem_of_app. left. apply elem_of_app. right. left. }
  split; [exact Hbr|]. split.
  - intros slug Hs. apply HIr in Hs. unfold r in Hbr. simpl in Hbr.
    fold st1 in Hbr. congruence.
  - destruct He as [->|[other ->]]; [by left|]. right. by exists other.
Qed.

(** *** Counting *)

Lemma assign_count st topic :
  (size (byslug (assign st topic)) + length (errors (assign st topic))
   = S (size (byslug st) + length (errors st)))%nat.
Proof.
  unfold Ditaconv.assign. simpl.
  destruct (byslug st !! Slugify (titelize (Title (heap st topic)))) eqn:E;
    [|case_bool_decide]; simpl; rewrite ?length_app; simpl; try lia.
  rewrite map_size_insert_None by done. lia.
Qed.

Lemma assign_count_bytopic st topic :
  bytopic st !! topic = None ->
  size (bytopic st) = size (byslug st) ->
  size (bytopic (assign st topic)) = size (byslug (assign st topic)).
Proof.
  intros Ht Hsz. unfold Ditaconv.assign. simpl.
  destruct (byslug st !! Slugify (titelize (Title (heap st topic)))) eqn:E;
    [done|case_bool_decide]; simpl; [done|].
  rewrite !map_size_insert_None by done. lia.
Qed.

Lemma promote_size st prev :
  size (byslug (promote st prev)) = size (byslug st).
Proof.
  promote_cases st prev.
  rewrite map_size_insert_None.
  - rewrite map_size_delete_Some by eauto.
    assert (size (byslug st) <> 0%nat); [|lia].
    intros Hz. apply map_size_empty_inv in Hz. rewrite Hz in Eprev.
    by rewrite lookup_empty in Eprev.
  - rewrite lookup_delete_ne; [done|]. congruence.
Qed.

Lemma promote_size_bytopic st prev :
  Inv st -> size (bytopic (promote st prev)) = size (bytopic st).
Proof.
  intros HI. promote_cases st prev.
  apply map_size_insert_Some. exists prev. by apply HI.
Qed.

Lemma fold_assign_count topics : forall st,
  (size (byslug (fold_left assign topics st))
   + length (errors (fold_left assign topics st))
   = length topics + (size (byslug st) + length (errors st)))%nat.
Proof.
  induction topics as [|a topics IH]; intros st; [done|].
  simpl. rewrite IH, assign_count. lia.
Qed.

Lemma fold_assign_count_bytopic topics : forall st,
  NoDup topics -> (forall t, t ∈ topics -> bytopic st !! t = None) ->
  size (bytopic st) = size (byslug st) ->
  size (bytopic (fold_left assign topics st))
  = size (byslug (fold_left assign topics st)).
Proof.
  induction topics as [|a topics IH]; intros st Hnd Hfresh Hsz; [done|].
  apply NoDup_cons in Hnd as [Ha Hnd]. simpl. apply IH; [done| |].
  - intros t Ht. rewrite assign_bytopic_other.
    + apply Hfresh. by right.
    + intros ->. done.
  - apply assign_count_bytopic; [|done]. apply Hfresh. left.
Qed.

Lemma fold_promote_size keys : forall st,
  size (byslug (fold_left promote keys st)) = size (byslug st).
Proof.
  induction keys as [|k keys IH]; intros st; [done|].
  simpl. rewrite IH. apply promote_size.
Qed.

Lemma fold_promote_size_bytopic keys : forall st,
  Inv st -> size (bytopic (fold_left promote keys st)) = size (bytopic st).
Proof.
  induction keys as [|k keys IH]; intros st HI; [done|].
  simpl. rewrite IH by by apply promote_Inv. by apply promote_size_bytopic.
Qed.

(** X11. Every visit of the first loop registers its topic or reports
    it: the identifiers of the returned mapping and the returned errors
    are together as many as the topics.  When the index holds each topic
    once, [ByTopic] has as many entries as [BySlug]. *)
Theorem CreateMapping_count
    (topics : list ptr) (keys : list Slug.Slug) (h : store) :
  let r := CreateMapping topics keys h in
  (size (BySlug r.1) + length r.2 = length topics)%nat
  /\ (NoDup topics -> size (ByTopic r.1) = size (BySlug r.1)).
Proof.
  intros r. unfold r, Ditaconv.CreateMapping, Ditaconv.promote_all. simpl.
  split.
  - rewrite fold_promote_size, fold_promote_errors.
    unfold Ditaconv.assign_all. rewrite fold_assign_count. simpl.
    rewrite map_size_empty. lia.
  - intros Hnd.
    rewrite fold_promote_size, fold_promote_size_bytopic
      by by apply assign_all_Inv.
    apply fold_assign_count_bytopic; [done| |done].
    intros t _. apply lookup_empty.
Qed.

(** *** Identifiers and titles *)

Local Abbreviation Titled := (Ditaconv.Titled Slugify).

Lemma assign_Titled st topic :
  Inv st -> bytopic st !! topic = None -> Titled st -> Titled (assign st topic).
Proof.
  intros HI Ht HJ.
  assert (forall s t, byslug st !! s = Some t -> t <> topic) as Hother.
  { intros s t Hs ->. apply HI in Hs. congruence. }
  unfold Ditaconv.assign. simpl.
  destruct (byslug st !! Slugify (titelize (Title (heap st topic)))) eqn:E;
    [|case_bool_decide as Hempty]; intros s t Hs; simpl in *.
  - rewrite fn_lookup_insert_ne by (symmetry; by eapply Hother). by apply HJ.
  - rewrite fn_lookup_insert_ne by (symmetry; by eapply Hother). by apply HJ.
  - destruct (decide (Slugify (titelize (Title (heap st topic))) = s)) as [<-|Hne].
    + rewrite lookup_insert_eq in Hs. injection Hs as <-.
      by rewrite fn_lookup_insert.
    + rewrite lookup_insert_ne in Hs by done.
      rewrite fn_lookup_insert_ne by (symmetry; by eapply Hother). by apply HJ.
Qed.

Lemma promote_Titled st prev : Inv st -> Titled st -> Titled (promote st prev).
Proof.
  intros HI HJ. promote_cases st prev. intros s t Hs. simpl in *.
  apply orb_false_iff in Hcond as [Hshort _].
  apply bool_decide_eq_false in Hshort.
  destruct (decide (Slugify (ShortTitle (heap st topic)) = s)) as [<-|Hne].
  - rewrite lookup_insert_eq in Hs. injection Hs as <-.
    by rewrite fn_lookup_insert.
  - rewrite lookup_insert_ne in Hs by done.
    apply lookup_delete_Some in Hs as [Hprev Hs].
    assert (t <> topic) as Ht.
    { intros ->. apply Hprev. by apply (Bijection_slug_unique _ _ _ _ _ HI Eprev Hs). }
    rewrite fn_lookup_insert_ne by done. by apply HJ.
Qed.

Lemma fold_assign_Titled topics : forall st,
  NoDup topics -> Inv st -> (forall t, t ∈ topics -> bytopic st !! t = None) ->
  Titled st -> Titled (fold_left assign topics st).
Proof.
  induction topics as [|a topics IH]; intros st Hnd HI Hfresh HJ; [done|].
  apply NoDup_cons in Hnd as [Ha Hnd]. simpl.
  assert (bytopic st !! a = None) as Hfa by (apply Hfresh; left).
  apply IH; [done|by apply assign_Inv| |by apply assign_Titled].
  intros t Ht. rewrite assign_bytopic_other.
  - apply Hfresh. by right.
  - intros ->. done.
Qed.

Lemma fold_promote_Titled keys : forall st,
  Inv st -> Titled st -> Titled (fold_left promote keys st).
Proof.
  induction keys as [|k keys IH]; intros st HI HJ; [done|].
  simpl. apply IH; [by apply promote_Inv|by apply promote_Titled].
Qed.

(** X12. When the index holds each topic once, every identifier of the
    returned mapping is the slug of the title that its topic has in the
    end, and that title is not empty. *)
Theorem CreateMapping_titled
    (topics : list ptr) (keys : list Slug.Slug) (h : store)
    (slug : Slug.Slug) (topic : ptr) :
  NoDup topics ->
  let r := CreateMapping topics keys h in
  BySlug r.1 !! slug = Some topic ->
  slug = Slugify (Title (Topics r.1 topic)) /\ Title (Topics r.1 topic) <> [].
Proof.
  intros Hnd r. unfold r, Ditaconv.CreateMapping, Ditaconv.promote_all. simpl.
  apply fold_promote_Titled; [by apply assign_all_Inv|].
  apply fold_assign_Titled; [done|apply Bijection_empty| |].
  - intros t _. apply lookup_empty.
  - intros s t Hs. simpl in Hs. by rewrite lookup_empty in Hs.
Qed.

(** *** What the second loop leaves alone *)

(** X13. When the index holds each topic once, the second loop neither
    adds nor drops a topic: the returned mapping has the topics that the
    first loop registered, all of them topics of the index. *)
Theorem promotion_keeps_topics
    (topics : list ptr) (keys : list Slug.Slug) (h : store) (topic : ptr) :
  NoDup topics ->
  let r := CreateMapping topics keys h in
  (is_Some (ByTopic r.1 !! topic)
   <-> is_Some (bytopic (assign_all topics h) !! topic))
  /\ (is_Some (ByTopic r.1 !! topic) -> topic ∈ topics).
Proof.
  intros Hnd r.
  assert (Inv (assign_all topics h)) as H1 by by apply assign_all_Inv.
  assert (is_Some (ByTopic r.1 !! topic)
          <-> is_Some (bytopic (assign_all topics h) !! topic)) as Hiff.
  { split.
    - intros Hs. destruct (bytopic (assign_all topics h) !! topic) eqn:E;
        [by eexists|].
      apply (fold_promote_None keys _ _ H1) in E.
      unfold r, Ditaconv.CreateMapping, Ditaconv.promote_all in Hs.
      simpl in Hs. rewrite E in Hs. by destruct Hs.
    - apply fold_promote_is_Some. }
  split; [exact Hiff|]. intros Hs. apply Hiff in Hs.
  destruct (decide (topic ∈ topics)) as [|Hnot]; [done|].
  unfold Ditaconv.assign_all in Hs.
  rewrite fold_assign_bytopic_other in Hs by done. simpl in Hs.
  rewrite lookup_empty in Hs. by destruct Hs.
Qed.

Lemma promote_Filename st prev t :
  Filename (heap (promote st prev) t) = Filename (heap st t).
Proof.
  promote_cases st prev. destruct (decide (topic = t)) as [->|Hne].
  - by rewrite fn_lookup_insert.
  - by rewrite fn_lookup_insert_ne.
Qed.

Lemma fold_promote_Filename keys : forall st t,
  Filename (heap (fold_left promote keys st) t) = Filename (heap st t).
Proof.
  induction keys as [|k keys IH]; intros st t; [done|].
  simpl. rewrite IH. apply promote_Filename.
Qed.

Lemma assign_Within l st topic :
  topic ∈ l -> Within l st -> Within l (assign st topic).
Proof.
  intros Hin HW. unfold Ditaconv.assign. simpl.
  destruct (byslug st !! Slugify (titelize (Title (heap st topic)))) eqn:E;
    [done|case_bool_decide]; [done|]. intros s t. simpl.
  destruct (decide (Slugify (titelize (Title (heap st topic))) = s)) as [<-|Hne].
  - rewrite lookup_insert_eq. by intros [= <-].
  - rewrite lookup_insert_ne by done. apply HW.
Qed.

Lemma promote_Within l st prev : Within l st -> Within l (promote st prev).
Proof.
  intros HW. promote_cases st prev. intros s t. simpl.
  destruct (decide (Slugify (ShortTitle (heap st topic)) = s)) as [<-|Hne].
  - rewrite lookup_insert_eq. intros [= <-]. by apply (HW prev).
  - rewrite lookup_insert_ne by done.
    intros [_ Hs]%lookup_delete_Some. by apply (HW s).
Qed.

Lemma promote_heap_outside l st prev t :
  Within l st -> t ∉ l -> heap (promote st prev) t = heap st t.
Proof.
  intros HW Ht. promote_cases st prev.
  rewrite fn_lookup_insert_ne; [done|]. intros ->. apply Ht. by apply (HW prev).
Qed.

Lemma fold_assign_Within l topics : forall st,
  (forall t, t ∈ topics -> t ∈ l) -> Within l st ->
  Within l (fold_left assign topics st).
Proof.
  induction topics as [|a topics IH]; intros st Hsub HW; [done|].
  simpl. apply IH.
  - intros t Ht. apply Hsub. by right.
  - apply assign_Within; [|done]. apply Hsub. left.
Qed.

Lemma fold_promote_heap_outside l keys : forall st t,
  Within l st -> t ∉ l -> heap (fold_left promote keys st) t = heap st t.
Proof.
  induction keys as [|k keys IH]; intros st t HW Ht; [done|].
  simpl. rewrite IH; [|by apply promote_Within|done].
  by apply (promote_heap_outside l).
Qed.

(** X14. [CreateMapping] never changes the file name of a topic, and
    leaves a topic that the index does not hold as it is. *)
Theorem CreateMapping_frame
    (topics : list ptr) (keys : list Slug.Slug) (h : store) (topic : ptr) :
  let r := CreateMapping topics keys h in
  Filename (Topics r.1 topic) = Filename (h topic)
  /\ (topic ∉ topics -> Topics r.1 topic = h topic).
Proof.
  intros r. unfold r, Ditaconv.CreateMapping, Ditaconv.promote_all,
    Ditaconv.assign_all. simpl. split.
  - by rewrite fold_promote_Filename, fold_assign_Filename.
  - intros Hnot. rewrite (fold_promote_heap_outside topics); [|  |done].
    + by rewrite fold_assign_heap_other.
    + apply fold_assign_Within; [done|]. intros s t Hs. simpl in Hs.
      by rewrite lookup_empty in Hs.
Qed.

(** *** The titles in the end *)

Lemma assign_heap_self st topic :
  heap (assign st topic) topic = normalized (heap st topic).
Proof. assign_cases st topic; by rewrite fn_lookup_insert. Qed.

Lemma fold_assign_heap_visited topics : forall st t,
  NoDup topics -> t ∈ topics ->
  heap (fold_left assign topics st) t = normalized (heap st t).
Proof.
  induction topics as [|a topics IH]; intros st t Hnd Ht.
  - by apply elem_of_nil in Ht.
  - apply NoDup_cons in Hnd as [Ha Hnd]. simpl.
    destruct (decide (t = a)) as [->|Hne].
    + rewrite fold_assign_heap_other by done. apply assign_heap_self.
    + apply elem_of_cons in Ht as [?|Ht]; [done|].
      rewrite IH by done. by rewrite assign_heap_other.
Qed.

Lemma promote_heap_cases st prev t :
  heap (promote st prev) t = heap st t
  \/ (ShortTitle (heap st t) <> []
      /\ heap (promote st prev) t
         = mkTopic (Filename (heap st t)) (ShortTitle (heap st t)) []).
Proof.
  unfold Ditaconv.promote.
  destruct (byslug st !! prev) as [topic|] eqn:Eprev; [|by left].
  destruct (bool_decide (ShortTitle (heap st topic) = [])
            || (len (Title (heap st topic)) <=? len (ShortTitle (heap st topic))))
    eqn:Hcond; [by left|].
  destruct (byslug st !! Slugify (ShortTitle (heap st topic))); [by left|].
  simpl. destruct (decide (topic = t)) as [->|Hne].
  - right. rewrite fn_lookup_insert. split; [|done].
    apply orb_false_iff in Hcond as [Hshort _].
    by apply bool_decide_eq_false in Hshort.
  - left. by rewrite fn_lookup_insert_ne.
Qed.

Lemma fold_promote_heap_cases keys : forall st t,
  heap (fold_left promote keys st) t = heap st t
  \/ (ShortTitle (heap st t) <> []
      /\ heap (fold_left promote keys st) t
         = mkTopic (Filename (heap st t)) (ShortTitle (heap st t)) []).
Proof.
  induction keys as [|k keys IH]; intros st t; [by left|].
  simpl. destruct (promote_heap_cases st k t) as [E|[Hne E]].
  - destruct (IH (promote st k) t) as [E'|[Hne' E']].
    + left. by rewrite E', E.
    + right. rewrite E in Hne', E'. by split.
  - destruct (IH (promote st k) t) as [E'|[Hne' E']].
    + right. split; [done|]. by rewrite E', E.
    + rewrite E in Hne'. done.
Qed.

(** X16. When the index holds each topic once, a topic of the index
    ends with its title and short title normalized, or, promoted, with
    its normalized short title (which is not empty) as its title and no
    short title. *)
Theorem CreateMapping_titles
    (topics : list ptr) (keys : list Slug.Slug) (h : store) (topic : ptr) :
  NoDup topics -> topic ∈ topics ->
  let r := CreateMapping topics keys h in
  let t := normalized (h topic) in
  Topics r.1 topic = t
  \/ (ShortTitle t <> []
      /\ Topics r.1 topic = mkTopic (Filename t) (ShortTitle t) []).
Proof.
  intros Hnd Hin r t.
  assert (heap (assign_all topics h) topic = t) as H1
    by by apply fold_assign_heap_visited.
  unfold r, Ditaconv.CreateMapping, Ditaconv.promote_all. simpl.
  destruct (fold_promote_heap_cases keys (assign_all topics h) topic)
    as [E|[Hne E]]; rewrite H1 in *; [by left|by right].
Qed.

(** *** A corpus without clashes *)

Lemma assign_is_Some st topic t :
  is_Some (bytopic st !! t) -> is_Some (bytopic (assign st topic) !! t).
Proof.
  intros H. assign_cases st topic; try done.
  destruct (decide (topic = t)) as [->|Hne].
  - rewrite lookup_insert_eq. eauto.
  - by rewrite lookup_insert_ne.
Qed.

Lemma fold_assign_is_Some topics : forall st t,
  is_Some (bytopic st !! t) -> is_Some (bytopic (fold_left assign topics st) !! t).
Proof.
  induction topics as [|a topics IH]; intros st t H; [done|].
  simpl. apply IH. by apply assign_is_Some.
Qed.

Lemma fold_assign_complete (all : list ptr) (h : store) :
  (forall t, t ∈ all -> titelize (Title (h t)) <> []) ->
  (forall t1 t2, t1 ∈ all -> t2 ∈ all ->
     Slugify (titelize (Title (h t1))) = Slugify (titelize (Title (h t2))) ->
     t1 = t2) ->
  forall rest st,
  NoDup rest -> (forall t, t ∈ rest -> t ∈ all) ->
  errors st = [] ->
  (forall s t, byslug st !! s = Some t ->
     t ∈ all /\ (t ∉ rest) /\ s = Slugify (titelize (Title (h t)))) ->
  (forall t, t ∈ rest -> heap st t = h t) ->
  errors (fold_left assign rest st) = []
  /\ forall t, t ∈ rest -> is_Some (bytopic (fold_left assign rest st) !! t).
Proof.
  intros Htitle Hinj.
  induction rest as [|a rest IH]; intros st Hnd Hsub Herr Hreg Hheap.
  - split; [done|]. intros t Ht. by apply elem_of_nil in Ht.
  - apply NoDup_cons in Hnd as [Ha Hnd]. simpl.
    assert (a ∈ all) as Hall by (apply Hsub; left).
    assert (heap st a = h a) as Hha by (apply Hheap; left).
    assert (byslug st !! Slugify (titelize (Title (h a))) = None) as Hfree.
    { destruct (byslug st !! Slugify (titelize (Title (h a)))) as [t|] eqn:E;
        [|done].
      destruct (Hreg _ _ E) as (Ht & Hnot & Hs).
      exfalso. apply Hnot. rewrite (Hinj a t Hall Ht Hs). left. }
    assert (assign st a =
            mkState (<[a := normalized (h a)]> (heap st))
              (<[Slugify (titelize (Title (h a))) := a]> (byslug st))
              (<[a := Slugify (titelize (Title (h a)))]> (bytopic st))
              (errors st)) as Hstep.
    { unfold Ditaconv.assign. simpl. rewrite Hha, Hfree.
      rewrite bool_decide_eq_false_2 by by apply Htitle. done. }
    destruct (IH (assign st a)) as [He Hsome]; try done.
    + intros t Ht. apply Hsub. by right.
    + by rewrite Hstep.
    + rewrite Hstep. simpl. intros s t.
      destruct (decide (Slugify (titelize (Title (h a))) = s)) as [<-|Hne].
      * rewrite lookup_insert_eq. by intros [= <-].
      * rewrite lookup_insert_ne by done. intros Hs.
        destruct (Hreg _ _ Hs) as (Ht & Hnot & ->).
        split; [done|]. split; [|done]. intros Hin. apply Hnot. by right.
    + intros t Ht. rewrite assign_heap_other.
      * apply Hheap. by right.
      * intros ->. done.
    + split; [done|]. intros t [->|Ht]%elem_of_cons; [|by apply Hsome].
      apply fold_assign_is_Some. rewrite Hstep. simpl.
      rewrite lookup_insert_eq. eauto.
Qed.

(** X15. When the index holds each topic once, no normalized title is
    empty and no two topics have normalized titles with the same slug,
    [CreateMapping] returns no error and a mapping with every topic. *)
Theorem CreateMapping_complete
    (topics : list ptr) (keys : list Slug.Slug) (h : store) :
  NoDup topics ->
  (forall t, t ∈ topics -> titelize (Title (h t)) <> []) ->
  (forall t1 t2, t1 ∈ topics -> t2 ∈ topics ->
     Slugify (titelize (Title (h t1))) = Slugify (titelize (Title (h t2))) ->
     t1 = t2) ->
  let r := CreateMapping topics keys h in
  r.2 = [] /\ forall t, t ∈ topics -> is_Some (ByTopic r.1 !! t).
Proof.
  intros Hnd Htitle Hinj r.
  assert (errors (assign_all topics h) = []
          /\ forall t, t ∈ topics -> is_Some (bytopic (assign_all topics h) !! t))
    as [He Hsome].
  { by apply (fold_assign_complete topics h Htitle Hinj topics). }
  unfold r, Ditaconv.CreateMapping, Ditaconv.promote_all. simpl. split.
  - by rewrite fold_promote_errors.
  - intros t Ht. apply fold_promote_is_Some. by apply Hsome.
Qed.

End MappingFacts.

Lemma CreateMapping_count_witness :
  NoDup [0; 1]%nat
  /\ size (ByTopic (CreateMapping Slug.ascii_Slugify [0; 1]%nat
                      [str "setup-or-install"] Sample.setup).1)
     = size (BySlug (CreateMapping Slug.ascii_Slugify [0; 1]%nat
                       [str "setup-or-install"] Sample.setup).1).
Proof.
  assert (NoDup [0; 1]%nat) as Hnd
    by (apply (bool_decide_unpack _); vm_compute; exact I).
  split; [exact Hnd|].
  exact (proj2 (CreateMapping_count Slug.ascii_Slugify [0; 1]%nat
                  [str "setup-or-install"] Sample.setup) Hnd).
Defined.

Lemma CreateMapping_titled_witness :
  NoDup [0; 1]%nat
  /\ str "install"
     = Slug.ascii_Slugify
         (Title (Topics (CreateMapping Slug.ascii_Slugify [0; 1]%nat
                           [str "installation-guide"; str "overview"]
                           Sample.guide).1 0%nat)).
Proof.
  assert (NoDup [0; 1]%nat) as Hnd
    by (apply (bool_decide_unpack _); vm_compute; exact I).
  split; [exact Hnd|].
  apply (CreateMapping_titled Slug.ascii_Slugify [0; 1]%nat
           [str "installation-guide"; str "overview"] Sample.guide
           (str "install") 0%nat Hnd).
  vm_compute. reflexivity.
Defined.

Lemma promotion_keeps_topics_witness :
  NoDup [0; 1]%nat
  /\ 1%nat ∈ [0; 1]%nat.
Proof.
  assert (NoDup [0; 1]%nat) as Hnd
    by (apply (bool_decide_unpack _); vm_compute; exact I).
  split; [exact Hnd|].
  apply (proj2 (promotion_keeps_topics Slug.ascii_Slugify [0; 1]%nat
                  [str "installation-guide"; str "overview"] Sample.guide
                  1%nat Hnd)).
  vm_compute. eauto.
Defined.

Lemma CreateMapping_frame_witness :
  (2%nat ∉ [0; 1]%nat)
  /\ Topics (CreateMapping Slug.ascii_Slugify [0; 1]%nat
               [str "installation-guide"; str "overview"] Sample.guide).1 2%nat
     = Sample.guide 2%nat.
Proof.
  assert (2%nat ∉ [0; 1]%nat) as Hnot
    by (apply (bool_decide_unpack _); vm_compute; exact I).
  split; [exact Hnot|].
  exact (proj2 (CreateMapping_frame Slug.ascii_Slugify [0; 1]%nat
                  [str "installation-guide"; str "overview"] Sample.guide
                  2%nat) Hnot).
Defined.

Lemma CreateMapping_titles_witness :
  NoDup [0; 1]%nat /\ 0%nat ∈ [0; 1]%nat
  /\ (Topics (CreateMapping Slug.ascii_Slugify [0; 1]%nat
                [str "installation-guide"; str "overview"] Sample.guide).1 0%nat
      = normalized (Sample.guide 0%nat)
      \/ (ShortTitle (normalized (Sample.guide 0%nat)) <> []
          /\ Topics (CreateMapping Slug.ascii_Slugify [0; 1]%nat
                       [str "installation-guide"; str "overview"]
                       Sample.guide).1 0%nat
             = mkTopic (Filename (normalized (Sample.guide 0%nat)))
                 (ShortTitle (normalized (Sample.guide 0%nat))) [])).
Proof.
  assert (NoDup [0; 1]%nat) as Hnd
    by (apply (bool_decide_unpack _); vm_compute; exact I).
  assert (0%nat ∈ [0; 1]%nat) as Hin by left.
  split; [exact Hnd|]. split; [exact Hin|].
  exact (CreateMapping_titles Slug.ascii_Slugify [0; 1]%nat
           [str "installation-guide"; str "overview"] Sample.guide 0%nat
           Hnd Hin).
Defined.

Lemma CreateMapping_complete_witness :
  NoDup [0; 1]%nat
  /\ (CreateMapping Slug.ascii_Slugify [0; 1]%nat
        [str "installation-guide"; str "overview"] Sample.guide).2 = [].
Proof.
  assert (NoDup [0; 1]%nat) as Hnd
    by (apply (bool_decide_unpack _); vm_compute; exact I).
  split; [exact Hnd|].
  apply (CreateMapping_complete Slug.ascii_Slugify [0; 1]%nat
           [str "installation-guide"; str "overview"] Sample.guide Hnd).
  - intros t Ht.
    apply elem_of_cons in Ht as [->|Ht]; [vm_compute; discriminate|].
    apply elem_of_cons in Ht as [->|Ht]; [vm_compute; discriminate|].
    by apply elem_of_nil in Ht.
  - intros t1 t2 H1 H2.
    apply elem_of_cons in H1 as [->|H1];
      [|apply elem_of_cons in H1 as [->|H1]; [|by apply elem_of_nil in H1]];
      (apply elem_of_cons in H2 as [->|H2];
       [|apply elem_of_cons in H2 as [->|H2]; [|by apply elem_of_nil in H2]]);
      try done; vm_compute; discriminate.
Defined.

Lemma CreateMapping_bijection_witness :
  NoDup [0; 1]%nat
  /\ ByTopic (CreateMapping Slug.ascii_Slugify [0; 1]%nat
                [str "installation-guide"; str "overview"] Sample.guide).1
       !! 0%nat = Some (str "install").
Proof.
  assert (NoDup [0; 1]%nat) as Hnd
    by (apply (bool_decide_unpack _); vm_compute; exact I).
  split; [exact Hnd|].
  pose proof (CreateMapping_bijection Slug.ascii_Slugify [0; 1]%nat
                [str "installation-guide"; str "overview"] Sample.guide Hnd) as H.
  cbv zeta in H. destruct H as [_ [H _]]. apply H. vm_compute. reflexivity.
Defined.

Lemma short_title_promotion_witness :
  let r := CreateMapping Slug.ascii_Slugify [0; 1]%nat
             ([] ++ str "installation-guide" :: [str "overview"]) Sample.guide in
  NoDup [0; 1]%nat
  /\ ByTopic r.1 !! 0%nat = Some (str "install")
  /\ BySlug r.1 !! str "install" = Some 0%nat
  /\ Title (Topics r.1 0%nat) = str "Install"
  /\ ShortTitle (Topics r.1 0%nat) = []
  /\ BySlug r.1 !! str "installation-guide" <> Some 0%nat
  /\ r.2 = [].
Proof.
  assert (NoDup [0; 1]%nat) as Hnd
    by (apply (bool_decide_unpack _); vm_compute; exact I).
  pose proof (short_title_promotion Slug.ascii_Slugify [0; 1]%nat []
                (str "installation-guide") [str "overview"] Sample.guide 0%nat
                Hnd) as H.
  cbv zeta in H.
  destruct H as (Hfree & _ & Herr).
  - vm_compute. reflexivity.
  - apply not_elem_of_nil.
  - vm_compute. discriminate.
  - vm_compute. reflexivity.
  - destruct Hfree as (H1 & H2 & H3 & H4 & _ & H6); [vm_compute; reflexivity|].
    cbv zeta. split; [exact Hnd|]. split; [exact H1|]. split; [exact H2|].
    split; [exact H3|]. split; [exact H4|]. split; [exact H6|]. exact Herr.
Defined.

Lemma clashing_title_excluded_witness :
  let r := CreateMapping Slug.ascii_Slugify ([] ++ 0 :: [] ++ 1 :: [])%nat
             [str "setup-or-install"] Sample.setup in
  NoDup [0; 1]%nat
  /\ (ClashingTitle (str "Setup or Install") (str "b.xml") (str "a.xml") ∈ r.2)
  /\ ByTopic r.1 !! 1%nat = None
  /\ exists slug, ByTopic r.1 !! 0%nat = Some slug /\ BySlug r.1 !! slug = Some 0%nat.
Proof.
  assert (NoDup [0; 1]%nat) as Hnd
    by (apply (bool_decide_unpack _); vm_compute; exact I).
  pose proof (clashing_title_excluded Slug.ascii_Slugify [] [] [] 0%nat 1%nat
                [str "setup-or-install"] Sample.setup) as H.
  cbv zeta in H.
  destruct H as (_ & _ & He & Hb & _ & Ha).
  - exact Hnd.
  - vm_compute. discriminate.
  - vm_compute. reflexivity.
  - intros x Hx. by apply not_elem_of_nil in Hx.
  - cbv zeta. split; [exact Hnd|]. split; [exact He|]. split; [exact Hb|].
    exact Ha.
Defined.

(* ================================================================== *)
(** ** The mapping on sample corpora *)

(** C2. [titelize] turns "Setup / Install" into "Setup or Install", but
    "Setup & Install" into "Setu and Install": the expression for "&"
    also matches the character before it, which is replaced with it. *)
Theorem titelize_drops_rune_before_amp :
  titelize (str "Setup / Install") = str "Setup or Install"
  /\ titelize (str "Setup & Install") = str "Setu and Install"
  /\ titelize (str "Setup & Install") <> str "Setup and Install".
Proof.
  split; [vm_compute; reflexivity|]. split; [vm_compute; reflexivity|].
  vm_compute. discriminate.
Qed.

(** C4, as first stated, fails on two topics without a title: their
    titles give the same identifier, yet neither topic is registered and
    no clash is reported. *)
Lemma clash_of_untitled_topics :
  let h := Sample.untitled in
  let r := CreateMapping Slug.ascii_Slugify [0; 1]%nat [] h in
  Slug.ascii_Slugify (titelize (Title (h 0%nat)))
  = Slug.ascii_Slugify (titelize (Title (h 1%nat)))
  /\ BySlug r.1 !! Slug.ascii_Slugify (titelize (Title (h 0%nat))) = None
  /\ ByTopic r.1 !! 0%nat = None
  /\ ByTopic r.1 !! 1%nat = None
  /\ r.2 = [TitleMissing (str "a.xml"); TitleMissing (str "b.xml")].
Proof. vm_compute. auto. Qed.

(** C8. A topic without a title that comes after a topic titled "-":
    both titles give the identifier "-", and the topic is reported as a
    clash of the title "" and not as a missing title, though it is left
    out of the mapping. *)
Theorem missing_title_reported_as_clash :
  let h := Sample.dash in
  let r := CreateMapping Slug.ascii_Slugify [0; 1]%nat [str "-"] h in
  titelize (Title (h 1%nat)) = []
  /\ r.2 = [ClashingTitle [] (str "b.xml") (str "a.xml")]
  /\ (TitleMissing (str "b.xml") ∉ r.2)
  /\ ByTopic r.1 !! 1%nat = None.
Proof.
  assert ((CreateMapping Slug.ascii_Slugify [0; 1]%nat [str "-"] Sample.dash).2
          = [ClashingTitle [] (str "b.xml") (str "a.xml")]) as H
    by (vm_compute; reflexivity).
  cbv zeta. rewrite H. split; [reflexivity|]. split; [reflexivity|]. split.
  - intros Hin. apply list_elem_of_singleton in Hin. discriminate Hin.
  - vm_compute. reflexivity.
Qed.

(* ================================================================== *)
(** ** Facts about the conversion *)

Section ConversionFacts.

Import Dita.

Variable mem : store.
Variable SplitLink : gostring -> gostring * gostring.
Variable CanonicalPath : gostring -> gostring.
Variable ExtractTitle : gostring -> gostring -> gostring * option error.
Variables (path_Dir : gostring -> gostring) (path_Join : gostring -> gostring -> gostring).
Variable NewConversion : Index -> ptr -> Context.
Variable Run : Context -> Context * option error.
Variable RelatedLinksAsHTML : PageConversion -> gostring.
Variable NewID : nat -> gostring.

Local Abbreviation ResolveLinkInfo :=
  (Dita.ResolveLinkInfo mem SplitLink CanonicalPath ExtractTitle path_Dir path_Join).
Local Abbreviation Convert :=
  (Dita.Convert mem NewConversion Run RelatedLinksAsHTML NewID).

(** C5. A reference that starts with neither "http:" nor "https:" and
    has a non-empty path part is looked up in the index of the context
    under the canonical form of its path joined to the directory of the
    topic being converted.  When the topic found has an identifier in
    [ByTopic], the link is internal and its href is that identifier,
    followed by "#" and the selector when there is a selector. *)
Theorem internal_link_resolved
    (conversion : PageConversion) (url path selector : gostring)
    (topic : ptr) (slug : Slug.Slug) :
  HasPrefix url (str "http:") = false ->
  HasPrefix url (str "https:") = false ->
  SplitLink url = (path, selector) ->
  path <> [] ->
  let context := convContext conversion in
  let name := path_Join (path_Dir (DecodingPath context)) path in
  Topics (ctxIndex context) !! CanonicalPath name = Some topic ->
  ByTopic (Mapping conversion) !! topic = Some slug ->
  exists title synopsis,
    (ResolveLinkInfo conversion url).1 =
    (slug ++ (if bool_decide (selector = []) then [] else str "#" ++ selector),
     title, synopsis, true).
Proof.
  intros Hhttp Hhttps Hsplit Hpath context name Hfound Hslug.
  unfold Dita.ResolveLinkInfo. rewrite Hhttp, Hhttps, Hsplit. simpl orb. cbv iota.
  rewrite (bool_decide_eq_false_2 (path = [])) by done.
  rewrite (bool_decide_eq_true_2 (path <> [])) by done.
  fold context. fold name. rewrite Hfound.
  destruct (ExtractTitle (Raw (mem topic)) selector) as [title [err|]];
    destruct (Original (mem topic));
    repeat case_bool_decide; try done; cbv beta iota zeta;
    change (Mapping (set_Context conversion ?c)) with (Mapping conversion);
    rewrite Hslug; simpl; rewrite ?app_nil_r; eauto.
Qed.

(** C6, for the references that the code lets through: a reference that
    starts with "http:" or "https:" is returned as it is, with empty title
    and synopsis and not internal, whatever the index and the mapping
    hold, and the conversion and its errors stay as they were. *)
Theorem web_link_passes_through (conversion : PageConversion) (url : gostring) :
  HasPrefix url (str "http:") || HasPrefix url (str "https:") = true ->
  ResolveLinkInfo conversion url = ((url, [], [], false), conversion).
Proof. intros H. unfold Dita.ResolveLinkInfo. by rewrite H. Qed.

(** A run without error gives a story of two items, the output of the
    run and the related links, next to the errors of the context. *)
Lemma Convert_story (conversion : PageConversion) (context : Context) :
  Run (set_Custom
         (set_Custom (NewConversion (convIndex conversion) (convTopic conversion))
            "a" ToSlug)
         "img" InlineImage) = (context, None) ->
  exists page,
    Convert conversion = (page, Errors context, None)
    /\ Story page =
       [HTML (NewID 0%nat) (Output context);
        HTML (NewID 1%nat) (RelatedLinksAsHTML (set_Context conversion context))].
Proof.
  intros Hrun. unfold Dita.Convert. rewrite Hrun. eexists. split; reflexivity.
Qed.

(** C7. When the run of the rewriter returns an error, [Convert] returns
    that error as its fatal error, no list of errors, and the page with
    its slug, title, date and synopsis and an empty story. *)
Theorem fatal_error_leaves_no_story
    (conversion : PageConversion) (context : Context) (err : error) :
  Run (set_Custom
         (set_Custom (NewConversion (convIndex conversion) (convTopic conversion))
            "a" ToSlug)
         "img" InlineImage) = (context, Some err) ->
  let topic := mem (convTopic conversion) in
  Convert conversion =
    (mkPage (convSlug conversion) (Title topic) (Modified topic) (Synopsis topic) [],
     [], Some err)
  /\ Story (Convert conversion).1.1 = [].
Proof.
  intros Hrun topic. unfold Dita.Convert. by rewrite Hrun.
Qed.

(** *** More on link resolution *)

Ltac resolve_cases conversion url :=
  unfold Dita.ResolveLinkInfo;
  destruct (HasPrefix url (str "http:") || HasPrefix url (str "https:"));
  [|let path := fresh "path" in
    let selector := fresh "selector" in
    destruct (SplitLink url) as [path selector];
    destruct (bool_decide (path = []));
    [|destruct (bool_decide (path <> []));
      (let key := fresh "key" in
       set (key := CanonicalPath _);
       let topic := fresh "topic" in
       destruct (Topics (ctxIndex (convContext conversion)) !! key) as [topic|];
       [destruct (ExtractTitle (Raw (mem topic)) selector) as [? [?|]];
        destruct (Original (mem topic));
        destruct (bool_decide (selector <> []));
        destruct (bool_decide (selector = []));
        try (destruct (bool_decide (_ = [])));
        cbv beta iota zeta;
        change (Mapping (set_Context conversion ?c)) with (Mapping conversion);
        destruct (ByTopic (Mapping conversion) !! topic)|])]];
  simpl.

(** X17. A reference that starts with neither "http:" nor "https:" and
    has no path part is a link into the topic itself: the href is "#" and
    the selector, the link is internal, and nothing is looked up or
    reported. *)
Theorem same_topic_link
    (conversion : PageConversion) (url selector : gostring) :
  HasPrefix url (str "http:") = false ->
  HasPrefix url (str "https:") = false ->
  SplitLink url = ([], selector) ->
  ResolveLinkInfo conversion url =
  ((str "#" ++ selector, [], [], true), conversion).
Proof.
  intros Hhttp Hhttps Hsplit.
  unfold Dita.ResolveLinkInfo. by rewrite Hhttp, Hhttps, Hsplit.
Qed.

(** X18. [ResolveLinkInfo] changes nothing of the conversion but the
    errors of its context, to which it appends at most one. *)
Theorem ResolveLinkInfo_frame (conversion : PageConversion) (url : gostring) :
  let r := ResolveLinkInfo conversion url in
  Mapping r.2 = Mapping conversion
  /\ convSlug r.2 = convSlug conversion
  /\ convIndex r.2 = convIndex conversion
  /\ convTopic r.2 = convTopic conversion
  /\ ctxIndex (convContext r.2) = ctxIndex (convContext conversion)
  /\ DecodingPath (convContext r.2) = DecodingPath (convContext conversion)
  /\ Output (convContext r.2) = Output (convContext conversion)
  /\ Custom (convContext r.2) = Custom (convContext conversion)
  /\ exists more,
       Errors (convContext r.2) = Errors (convContext conversion) ++ more
       /\ (length more <= 1)%nat.
Proof.
  cbv zeta. resolve_cases conversion url; repeat (split; [reflexivity|]);
    first [ exists []; split; [by rewrite app_nil_r|simpl; lia]
          | eexists [_]; split; [reflexivity|simpl; lia] ].
Qed.

(** X19. A reference that starts with neither "http:" nor "https:" is
    resolved to an internal link or to no href at all. *)
Theorem unresolved_link_has_no_href (conversion : PageConversion) (url : gostring) :
  HasPrefix url (str "http:") = false ->
  HasPrefix url (str "https:") = false ->
  let r := ResolveLinkInfo conversion url in
  r.1.2 = false -> r.1.1.1.1 = [].
Proof.
  intros Hhttp Hhttps. cbv zeta.
  unfold Dita.ResolveLinkInfo. rewrite Hhttp, Hhttps. simpl orb. cbv iota.
  destruct (SplitLink url) as [path selector].
  destruct (bool_decide (path = [])); [done|].
  destruct (bool_decide (path <> [])).
  all: set (key := CanonicalPath _).
  all: destruct (Topics (ctxIndex (convContext conversion)) !! key) as [topic|];
    [|done].
  all: destruct (ExtractTitle (Raw (mem topic)) selector) as [? [?|]];
    destruct (Original (mem topic));
    destruct (bool_decide (selector <> []));
    destruct (bool_decide (selector = []));
    try (destruct (bool_decide (_ = [])));
    cbv beta iota zeta;
    change (Mapping (set_Context conversion ?c)) with (Mapping conversion);
    destruct (ByTopic (Mapping conversion) !! topic); done.
Qed.

(** X20. A reference with a path part that the index does not have is
    returned unresolved, with one more error, which names the path looked
    for and the reference. *)
Theorem missing_topic_reported
    (conversion : PageConversion) (url path selector : gostring) :
  HasPrefix url (str "http:") = false ->
  HasPrefix url (str "https:") = false ->
  SplitLink url = (path, selector) ->
  path <> [] ->
  let context := convContext conversion in
  let name := path_Join (path_Dir (DecodingPath context)) path in
  Topics (ctxIndex context) !! CanonicalPath name = None ->
  let r := ResolveLinkInfo conversion url in
  r.1 = ([], [], [], false)
  /\ Errors (convContext r.2) =
     Errors context
     ++ [str "did not find topic " ++ name ++ str " [" ++ path ++ selector
         ++ str "]"].
Proof.
  intros Hhttp Hhttps Hsplit Hpath context name Hmiss. cbv zeta.
  unfold Dita.ResolveLinkInfo. rewrite Hhttp, Hhttps, Hsplit. simpl orb. cbv iota.
  rewrite (bool_decide_eq_false_2 (path = [])) by done.
  rewrite (bool_decide_eq_true_2 (path <> [])) by done.
  fold context. fold name. by rewrite Hmiss.
Qed.

(** X22. When the title at a selector cannot be extracted from a topic
    that the index has, one error is appended, which names the path, the
    reference and the cause; the link is resolved all the same. *)
Theorem extraction_failure_reported
    (conversion : PageConversion) (url path selector title : gostring)
    (topic : ptr) (err : error) :
  HasPrefix url (str "http:") = false ->
  HasPrefix url (str "https:") = false ->
  SplitLink url = (path, selector) ->
  path <> [] ->
  selector <> [] ->
  let context := convContext conversion in
  let name := path_Join (path_Dir (DecodingPath context)) path in
  Topics (ctxIndex context) !! CanonicalPath name = Some topic ->
  ExtractTitle (Raw (mem topic)) selector = (title, Some err) ->
  let r := ResolveLinkInfo conversion url in
  Errors (convContext r.2) =
  Errors context
  ++ [str "unable to extract title from " ++ name ++ str " [" ++ path
      ++ selector ++ str "]: " ++ err]
  /\ r.1.2 = bool_decide (is_Some (ByTopic (Mapping conversion) !! topic)).
Proof.
  intros Hhttp Hhttps Hsplit Hpath Hsel context name Hfound Hextract. cbv zeta.
  unfold Dita.ResolveLinkInfo. rewrite Hhttp, Hhttps, Hsplit. simpl orb. cbv iota.
  rewrite (bool_decide_eq_false_2 (path = [])) by done.
  rewrite (bool_decide_eq_true_2 (path <> [])) by done.
  fold context. fold name. rewrite Hfound, Hextract.
  rewrite (bool_decide_eq_true_2 (selector <> [])) by done.
  rewrite (bool_decide_eq_false_2 (selector = [])) by done.
  destruct (Original (mem topic)); try destruct (bool_decide (title = []));
    cbv beta iota zeta;
    change (Mapping (set_Context conversion ?c)) with (Mapping conversion);
    destruct (ByTopic (Mapping conversion) !! topic); simpl;
    split; reflexivity.
Qed.

(** X23. Only a reference without selector gets a synopsis. *)
Theorem synopsis_without_selector
    (conversion : PageConversion) (url path selector : gostring) :
  SplitLink url = (path, selector) ->
  selector <> [] ->
  (ResolveLinkInfo conversion url).1.1.2 = [].
Proof.
  intros Hsplit Hsel. unfold Dita.ResolveLinkInfo.
  destruct (HasPrefix url (str "http:") || HasPrefix url (str "https:"));
    [done|].
  rewrite Hsplit.
  destruct (bool_decide (path = [])); [done|].
  destruct (bool_decide (path <> [])).
  all: set (key := CanonicalPath _).
  all: destruct (Topics (ctxIndex (convContext conversion)) !! key) as [topic|];
    [|done].
  all: rewrite (bool_decide_eq_true_2 (selector <> [])) by done.
  all: rewrite (bool_decide_eq_false_2 (selector = [])) by done.
  all: destruct (ExtractTitle (Raw (mem topic)) selector) as [? [?|]];
    destruct (Original (mem topic)); try case_bool_decide;
    cbv beta iota zeta;
    change (Mapping (set_Context conversion ?c)) with (Mapping conversion);
    destruct (ByTopic (Mapping conversion) !! topic); done.
Qed.

End ConversionFacts.

Lemma same_topic_link_witness :
  Sample.ResolveLinkInfo Sample.conversion (str "#intro")
  = ((str "#intro", [], [], true), Sample.conversion).
Proof.
  apply (same_topic_link Sample.mem Sample.SplitLink Sample.CanonicalPath
           Sample.ExtractTitle Sample.Dir Sample.Join Sample.conversion
           (str "#intro") (str "intro")); vm_compute; reflexivity.
Defined.

Lemma unresolved_link_has_no_href_witness :
  (Sample.ResolveLinkInfo Sample.conversion (str "missing.xml")).1.1.1.1 = [].
Proof.
  apply (unresolved_link_has_no_href Sample.mem Sample.SplitLink
           Sample.CanonicalPath Sample.ExtractTitle Sample.Dir Sample.Join
           Sample.conversion (str "missing.xml")); vm_compute; reflexivity.
Defined.

Lemma missing_topic_reported_witness :
  (Sample.ResolveLinkInfo Sample.conversion (str "missing.xml#top")).1
  = ([], [], [], false)
  /\ Dita.Errors (Dita.convContext
       (Sample.ResolveLinkInfo Sample.conversion (str "missing.xml#top")).2)
     = [str "did not find topic sub/missing.xml [missing.xmltop]"].
Proof.
  apply (missing_topic_reported Sample.mem Sample.SplitLink Sample.CanonicalPath
           Sample.ExtractTitle Sample.Dir Sample.Join Sample.conversion
           (str "missing.xml#top") (str "missing.xml") (str "top")).
  - vm_compute. reflexivity.
  - vm_compute. reflexivity.
  - vm_compute. reflexivity.
  - vm_compute. discriminate.
  - vm_compute. reflexivity.
Defined.

Lemma extraction_failure_reported_witness :
  Dita.Errors (Dita.convContext
    (Sample.ResolveLinkInfo Sample.conversion (str "../a.xml#intro")).2)
  = [str "unable to extract title from a.xml [../a.xmlintro]: not found"]
  /\ (Sample.ResolveLinkInfo Sample.conversion (str "../a.xml#intro")).1.2 = true.
Proof.
  apply (extraction_failure_reported Sample.mem Sample.SplitLink
           Sample.CanonicalPath Sample.ExtractTitle Sample.Dir Sample.Join
           Sample.conversion (str "../a.xml#intro") (str "../a.xml")
           (str "intro") [] 0%nat (str "not found")).
  - vm_compute. reflexivity.
  - vm_compute. reflexivity.
  - vm_compute. reflexivity.
  - vm_compute. discriminate.
  - vm_compute. discriminate.
  - vm_compute. reflexivity.
  - vm_compute. reflexivity.
Defined.

Lemma synopsis_without_selector_witness :
  (Sample.ResolveLinkInfo Sample.conversion (str "../a.xml#intro")).1.1.2 = [].
Proof.
  apply (synopsis_without_selector Sample.mem Sample.SplitLink
           Sample.CanonicalPath Sample.ExtractTitle Sample.Dir Sample.Join
           Sample.conversion (str "../a.xml#intro") (str "../a.xml")
           (str "intro")).
  - vm_compute. reflexivity.
  - vm_compute. discriminate.
Defined.

Lemma internal_link_resolved_witness :
  exists title synopsis,
    (Sample.ResolveLinkInfo Sample.conversion (str "../a.xml#intro")).1
    = (str "alpha#intro", title, synopsis, true).
Proof.
  apply (internal_link_resolved Sample.mem Sample.SplitLink Sample.CanonicalPath
           Sample.ExtractTitle Sample.Dir Sample.Join Sample.conversion
           (str "../a.xml#intro") (str "../a.xml") (str "intro") 0%nat
           (str "alpha")).
  - vm_compute. reflexivity.
  - vm_compute. reflexivity.
  - vm_compute. reflexivity.
  - vm_compute. discriminate.
  - vm_compute. reflexivity.
  - vm_compute. reflexivity.
Defined.

Lemma web_link_passes_through_witness :
  Sample.ResolveLinkInfo Sample.conversion (str "http://example.com")
  = ((str "http://example.com", [], [], false), Sample.conversion).
Proof.
  apply (web_link_passes_through Sample.mem Sample.SplitLink Sample.CanonicalPath
           Sample.ExtractTitle Sample.Dir Sample.Join).
  vm_compute. reflexivity.
Defined.

Lemma fatal_error_leaves_no_story_witness :
  Dita.Story (Dita.Convert Sample.mem Sample.NewConversion Sample.Run_fails
                Sample.RelatedLinksAsHTML Sample.NewID Sample.conversion).1.1 = []
  /\ (Dita.Convert Sample.mem Sample.NewConversion Sample.Run_fails
        Sample.RelatedLinksAsHTML Sample.NewID Sample.conversion).2
     = Some (str "unexpected end element").
Proof.
  pose proof (fatal_error_leaves_no_story Sample.mem Sample.NewConversion
                Sample.Run_fails Sample.RelatedLinksAsHTML Sample.NewID
                Sample.conversion _ _ eq_refl) as H.
  cbv zeta in H. destruct H as [H1 H2]. split; [exact H2|]. by rewrite H1.
Defined.

(** C6, as first stated, fails on a reference with another scheme: it is
    taken for a path, not found in the index, and reported. *)
Lemma ftp_link_not_passed_through :
  let url := str "ftp://example.com/a.xml" in
  let r := Sample.ResolveLinkInfo Sample.conversion url in
  Dita.scheme_qualified url = true
  /\ r.1 = ([], [], [], false)
  /\ r.1 <> (url, [], [], false)
  /\ Dita.Errors (Dita.convContext r.2)
     = [str "did not find topic sub/ftp:/example.com/a.xml [ftp://example.com/a.xml]"].
Proof.
  split; [vm_compute; reflexivity|]. split; [vm_compute; reflexivity|].
  split; [vm_compute; discriminate|]. vm_compute. reflexivity.
Qed.
